(** * ServerConfig: backend scheduling, domain matching and scoped lookups

    A shallow embedding of package [teaconfigs]' [ServerConfig] (the
    virtual-server configuration of the proxy) together with the
    properties of its scheduling engine ([SetupScheduling],
    [NextBackend]), its domain matcher ([MatchName]), its validation
    entry point ([Validate]) and its scoped header-list resolver
    ([FindHeaderList]).

    Conventions of the embedding:
    - Go strings are byte strings ([string]); [len(s) > 0] is [s <> ""];
    - a [maps.Map] is a reference to a hash map and may be [nil]:
      [option (gmap string Value)], writing to [nil] panics;
    - a method with a pointer receiver is a computation in the monad [M]
      that threads the receiver, and records in a log the mutex
      operations and the calls made on the scheduling object;
    - what lives in other packages ([scheduling], [shared], [api]) or in
      other files of the package ([LocationConfig], [ServerBackendConfig],
      ...) is taken as an interface: a type with its operations. *)

From Stdlib Require Import Ascii String.
From stdpp Require Import base option list strings gmap fin_maps.

Set Default Proof Using "Type".
Local Open Scope string_scope.
Local Open Scope list_scope.

(** ** Basic Go notions *)

(** [error]: the values built by [errors.New(msg)], and whatever the
    sub-validators return. *)
Definition error : Type := string.

(** [maps.Map] is [map[string]interface{}]; [None] is the [nil] map. *)
Definition maps_Map (Value : Type) : Type := option (gmap string Value).

(** Outcome of a Go computation: a normal return or a run-time panic. *)
Inductive Res (A : Type) : Type :=
  | Ok (a : A)
  | Panic (msg : string).
Arguments Ok {A} a.
Arguments Panic {A} msg.

(** [strings.Split(s, sep)] for a one-byte separator: the substrings
    between the separators, in order; a string without separator gives
    itself, the empty string gives one empty piece. *)
Fixpoint strings_Split (s : string) (sep : ascii) : list string :=
  match s with
  | EmptyString => [EmptyString]
  | String c rest =>
      if Ascii.eqb c sep then EmptyString :: strings_Split rest sep
      else match strings_Split rest sep with
           | piece :: pieces => String c piece :: pieces
           | [] => [String c EmptyString]
           end
  end.

(** ** Data model *)

(** Modelled from the spec: the declaration of [ServerBackendConfig] is in
    another file of the package; the spec lists its attributes ([Id],
    address and weight, [On], [IsDown], [IsBackup]) and the methods of
    [ServerConfig] read [Id], [On], [IsDown] and [IsBackup]. *)
Module ServerBackendConfig.
Record t : Type := Build {
  Id : string;
  Address : string;
  Weight : N;
  On : bool;        (* enabled *)
  IsDown : bool;    (* health state, set from outside *)
  IsBackup : bool   (* tier marker *)
}.
End ServerBackendConfig.
Abbreviation Backend := ServerBackendConfig.t.

(** Modelled from the spec: [SchedulingConfig] is declared in another file;
    it holds the algorithm's [Code] and a key-value [Options] map (for a
    map that is only read, [nil] and the empty map are the same). *)
Module SchedulingConfig.
Record t (Value : Type) : Type := Build {
  Code : string;
  Options : gmap string Value
}.
Arguments Build {Value} _ _.
Arguments Code {Value} _.
Arguments Options {Value} _.
End SchedulingConfig.

(** Package [scheduling] is not among the sources: the interface every
    algorithm implements and the registry are parameters.  A value of
    [SchedulingInterface] is a live instance (its dynamic type and its
    run-time state); since Go mutates the instance in place, each method
    returns the instance after the call.  [Next] reads the options map it
    is given; the candidates it returns are the backends that were
    added, which is what makes the type assertion of the candidate to a
    backend pointer in [NextBackend] succeed.  As the specification has
    it, the registry maps a code to a descriptor that holds a fresh
    instance: every lookup of a code gives the same initial instance. *)
Class SchedulingPackage (Value : Type) : Type := {
  SchedulingInterface : Type;
  Add : SchedulingInterface -> Backend -> SchedulingInterface;
  Start : SchedulingInterface -> SchedulingInterface;
  Next : SchedulingInterface -> maps_Map Value ->
         option Backend * SchedulingInterface;
  (** [FindSchedulingType(code)]: [nil] for an unknown code, otherwise the
      descriptor, of which [SetupScheduling] takes the ["instance"]. *)
  FindSchedulingType : string -> option SchedulingInterface;
  (** [&scheduling.RandomScheduling{}]: a fresh default instance. *)
  RandomScheduling : SchedulingInterface
}.

(** What [ServerConfig] uses of the rest of the configuration tree, whose
    declarations are in other files and packages: parameters too.  Every
    [Validate] may normalise its receiver, so it returns the receiver
    after the call next to the error ([None] is a [nil] error).  The
    three lists are the structs embedded in [ServerConfig], with the
    methods they promote to it. *)
Class Collaborators : Type := {
  SSLConfig : Type;
  SSLConfig_Validate : SSLConfig -> SSLConfig * option error;
  Backend_Validate : Backend -> Backend * option error;
  RewriteRule : Type;
  FastcgiConfig : Type;
  LocationConfig : Type;
  Location_Id : LocationConfig -> string;
  Location_Validate : LocationConfig -> LocationConfig * option error;
  Location_FindRewriteRule : LocationConfig -> string -> option RewriteRule;
  Location_FindFastcgi : LocationConfig -> string -> option FastcgiConfig;
  Location_FindBackend : LocationConfig -> string -> option Backend;
  shared_HeaderList : Type;
  ValidateHeaders : shared_HeaderList -> shared_HeaderList * option error;
  teaconfigs_FastcgiList : Type;
  ValidateFastcgi :
    teaconfigs_FastcgiList -> teaconfigs_FastcgiList * option error;
  FindFastcgi : teaconfigs_FastcgiList -> string -> option FastcgiConfig;
  teaconfigs_RewriteList : Type;
  ValidateRewriteRules :
    teaconfigs_RewriteList -> teaconfigs_RewriteList * option error;
  FindRewriteRule : teaconfigs_RewriteList -> string -> option RewriteRule;
  shared_CachePolicy : Type;
  (** [shared.NewCachePolicyFromFile(name)]: [nil] when the policy cannot
      be loaded. *)
  NewCachePolicyFromFile : string -> option shared_CachePolicy;
  CachePolicy_Validate :
    shared_CachePolicy -> shared_CachePolicy * option error;
  api_APIConfig : Type;
  NewAPIConfig : api_APIConfig;
  APIConfig_Validate : api_APIConfig -> api_APIConfig * option error
}.

Section ServerConfig.

Context {Value : Type} `{!SchedulingPackage Value} `{!Collaborators}.

(** The struct, without the fields marked TODO in the source, which no
    method reads.  The three embedded lists come first, as in the source;
    [schedulingLocker] has no content of its own: its [Lock] and [Unlock]
    are events of the log. *)
Record ServerConfig : Type := Build_ServerConfig {
  HeaderList : shared_HeaderList;
  FastcgiList : teaconfigs_FastcgiList;
  RewriteList : teaconfigs_RewriteList;
  On : bool;
  Id : string;
  Description : string;
  Name : list string;
  Listen : list string;
  Backends : list Backend;
  Scheduling : option (SchedulingConfig.t Value);
  Locations : list LocationConfig;
  SSL : option SSLConfig;
  Filename : string;
  CachePolicy : string;
  cachePolicy : option shared_CachePolicy;
  API : option api_APIConfig;
  schedulingIsBackup : bool;
  schedulingObject : option SchedulingInterface
}.

(** Field assignments [this.F = v]. *)
Definition set_HeaderList (v : shared_HeaderList) (this : ServerConfig) : ServerConfig :=
  Build_ServerConfig v (FastcgiList this) (RewriteList this) (On this)
    (Id this) (Description this) (Name this) (Listen this) (Backends this)
    (Scheduling this) (Locations this) (SSL this) (Filename this)
    (CachePolicy this) (cachePolicy this) (API this)
    (schedulingIsBackup this) (schedulingObject this).
Definition set_FastcgiList (v : teaconfigs_FastcgiList) (this : ServerConfig) : ServerConfig :=
  Build_ServerConfig (HeaderList this) v (RewriteList this) (On this)
    (Id this) (Description this) (Name this) (Listen this) (Backends this)
    (Scheduling this) (Locations this) (SSL this) (Filename this)
    (CachePolicy this) (cachePolicy this) (API this)
    (schedulingIsBackup this) (schedulingObject this).
Definition set_RewriteList (v : teaconfigs_RewriteList) (this : ServerConfig) : ServerConfig :=
  Build_ServerConfig (HeaderList this) (FastcgiList this) v (On this)
    (Id this) (Description this) (Name this) (Listen this) (Backends this)
    (Scheduling this) (Locations this) (SSL this) (Filename this)
    (CachePolicy this) (cachePolicy this) (API this)
    (schedulingIsBackup this) (schedulingObject this).
Definition set_Backends (v : list Backend) (this : ServerConfig) : ServerConfig :=
  Build_ServerConfig (HeaderList this) (FastcgiList this) (RewriteList this)
    (On this) (Id this) (Description this) (Name this) (Listen this) v
    (Scheduling this) (Locations this) (SSL this) (Filename this)
    (CachePolicy this) (cachePolicy this) (API this)
    (schedulingIsBackup this) (schedulingObject this).
Definition set_Scheduling (v : option (SchedulingConfig.t Value)) (this : ServerConfig) : ServerConfig :=
  Build_ServerConfig (HeaderList this) (FastcgiList this) (RewriteList this)
    (On this) (Id this) (Description this) (Name this) (Listen this)
    (Backends this) v (Locations this) (SSL this) (Filename this)
    (CachePolicy this) (cachePolicy this) (API this)
    (schedulingIsBackup this) (schedulingObject this).
Definition set_Locations (v : list LocationConfig) (this : ServerConfig) : ServerConfig :=
  Build_ServerConfig (HeaderList this) (FastcgiList this) (RewriteList this)
    (On this) (Id this) (Description this) (Name this) (Listen this)
    (Backends this) (Scheduling this) v (SSL this) (Filename this)
    (CachePolicy this) (cachePolicy this) (API this)
    (schedulingIsBackup this) (schedulingObject this).
Definition set_SSL (v : option SSLConfig) (this : ServerConfig) : ServerConfig :=
  Build_ServerConfig (HeaderList this) (FastcgiList this) (RewriteList this)
    (On this) (Id this) (Description this) (Name this) (Listen this)
    (Backends this) (Scheduling this) (Locations this) v (Filename this)
    (CachePolicy this) (cachePolicy this) (API this)
    (schedulingIsBackup this) (schedulingObject this).
Definition set_cachePolicy (v : option shared_CachePolicy) (this : ServerConfig) : ServerConfig :=
  Build_ServerConfig (HeaderList this) (FastcgiList this) (RewriteList this)
    (On this) (Id this) (Description this) (Name this) (Listen this)
    (Backends this) (Scheduling this) (Locations this) (SSL this)
    (Filename this) (CachePolicy this) v (API this)
    (schedulingIsBackup this) (schedulingObject this).
Definition set_API (v : option api_APIConfig) (this : ServerConfig) : ServerConfig :=
  Build_ServerConfig (HeaderList this) (FastcgiList this) (RewriteList this)
    (On this) (Id this) (Description this) (Name this) (Listen this)
    (Backends this) (Scheduling this) (Locations this) (SSL this)
    (Filename this) (CachePolicy this) (cachePolicy this) v
    (schedulingIsBackup this) (schedulingObject this).
Definition set_schedulingIsBackup (v : bool) (this : ServerConfig) : ServerConfig :=
  Build_ServerConfig (HeaderList this) (FastcgiList this) (RewriteList this)
    (On this) (Id this) (Description this) (Name this) (Listen this)
    (Backends this) (Scheduling this) (Locations this) (SSL this)
    (Filename this) (CachePolicy this) (cachePolicy this) (API this) v
    (schedulingObject this).
Definition set_schedulingObject (v : option SchedulingInterface) (this : ServerConfig) : ServerConfig :=
  Build_ServerConfig (HeaderList this) (FastcgiList this) (RewriteList this)
    (On this) (Id this) (Description this) (Name this) (Listen this)
    (Backends this) (Scheduling this) (Locations this) (SSL this)
    (Filename this) (CachePolicy this) (cachePolicy this) (API this)
    (schedulingIsBackup this) v.

(** ** The monad of the methods

    A method runs on its receiver and appends to a log the events the
    properties speak about: the operations on [schedulingLocker], the
    assignment of a fresh instance to [schedulingObject], and the calls of
    the interface methods on it. *)
Inductive Event : Type :=
  | EvLock
  | EvUnlock
  | EvAssign
  | EvAdd (backend : Backend)
  | EvStart
  | EvNext (options : maps_Map Value).

Record State : Type := MkState {
  receiver : ServerConfig;
  log : list Event
}.

Definition M (A : Type) : Type := State -> Res A * State.

Definition ret {A} (a : A) : M A := fun st => (Ok a, st).

Definition bind {A B} (m : M A) (k : A -> M B) : M B :=
  fun st =>
    match m st with
    | (Ok a, st') => k a st'
    | (Panic msg, st') => (Panic msg, st')
    end.

Notation "'let*' x ':=' m 'in' k" := (bind m (fun x => k))
  (at level 10, x name, m at level 100, k at level 200, only parsing).
Notation "m >>> k" := (bind m (fun _ => k))
  (at level 90, right associativity, only parsing).

Definition panic {A} (msg : string) : M A := fun st => (Panic msg, st).

Definition get : M ServerConfig := fun st => (Ok (receiver st), st).

Definition modify (f : ServerConfig -> ServerConfig) : M unit :=
  fun st => (Ok tt, MkState (f (receiver st)) (log st)).

Definition emit (e : Event) : M unit :=
  fun st => (Ok tt, MkState (receiver st) (log st ++ [e])).

Definition lift {A} (r : Res A) : M A := fun st => (r, st).

(** [defer cleanup] before a body: the cleanup runs when the body
    returns, and also when it panics. *)
Definition defer {A} (cleanup : M unit) (body : M A) : M A :=
  fun st =>
    let '(r, st') := body st in
    (r, snd (cleanup st')).

(** [for _, x := range l { body }] *)
Fixpoint for_range {A} (l : list A) (body : A -> M unit) : M unit :=
  match l with
  | [] => ret tt
  | x :: rest => body x >>> for_range rest body
  end.

(** A method call [this.schedulingObject.f(...)]: calling a method on a
    [nil] interface value panics. *)
Definition schedulingObject_call {A}
    (f : SchedulingInterface -> A * SchedulingInterface) : M A :=
  let* this := get in
  match schedulingObject this with
  | None => panic "invalid memory address or nil pointer dereference"
  | Some object =>
      let '(a, object') := f object in
      modify (set_schedulingObject (Some object')) >>> ret a
  end.

Definition call_Add (backend : Backend) : M unit :=
  emit (EvAdd backend) >>>
  schedulingObject_call (fun object => (tt, Add object backend)).

Definition call_Start : M unit :=
  emit EvStart >>>
  schedulingObject_call (fun object => (tt, Start object)).

Definition call_Next (options : maps_Map Value) : M (option Backend) :=
  emit (EvNext options) >>>
  schedulingObject_call (fun object => Next object options).

(** [this.schedulingObject = instance], a fresh instance. *)
Definition assign_schedulingObject (instance : SchedulingInterface) : M unit :=
  emit EvAssign >>> modify (set_schedulingObject (Some instance)).

(** ** Lookups *)

(** The first backend with the given id, [nil] when there is none. *)
Fixpoint find_backend (backends : list Backend) (backendId : string)
    : option Backend :=
  match backends with
  | [] => None
  | backend :: rest =>
      if String.eqb (ServerBackendConfig.Id backend) backendId
      then Some backend
      else find_backend rest backendId
  end.

Definition FindBackend (this : ServerConfig) (backendId : string)
    : option Backend :=
  find_backend (Backends this) backendId.

(** The loop of [FindLocation]: the first location with the given id is
    validated in place (the error is dropped) and returned. *)
Fixpoint find_location (locations : list LocationConfig) (locationId : string)
    : option LocationConfig * list LocationConfig :=
  match locations with
  | [] => (None, [])
  | location :: rest =>
      if String.eqb (Location_Id location) locationId
      then
        let location' := fst (Location_Validate location) in
        (Some location', location' :: rest)
      else
        let '(found, rest') := find_location rest locationId in
        (found, location :: rest')
  end.

Definition FindLocation (locationId : string) : M (option LocationConfig) :=
  let* this := get in
  let '(found, locations) := find_location (Locations this) locationId in
  modify (set_Locations locations) >>> ret found.

(** ** Domain matcher *)

(** The inner loop of [MatchName]: [pieces2] is ranged over with its
    index; [pieces1[index]] is in range because both have the same
    length ([""] stands for an index out of range, which the caller
    excludes). *)
Fixpoint match_pieces (pieces1 : list string) (index : nat)
    (pieces2 : list string) : bool :=
  match pieces2 with
  | [] => true
  | piece :: rest =>
      if negb (String.eqb (nth index pieces1 "") piece)
         && negb (String.eqb piece "*")
         && negb (String.eqb piece "")
      then false
      else match_pieces pieces1 (S index) rest
  end.

(** The outer loop of [MatchName] over [this.Name]. *)
Fixpoint match_names (name : string) (pieces1 : list string)
    (names : list string) : string * bool :=
  match names with
  | [] => ("", false)
  | testName :: rest =>
      if String.eqb testName "" then match_names name pieces1 rest
      else if String.eqb name testName then (testName, true)
      else
        let pieces2 := strings_Split testName "." in
        if negb (Nat.eqb (length pieces1) (length pieces2))
        then match_names name pieces1 rest
        else if match_pieces pieces1 0 pieces2 then ("", true)
        else match_names name pieces1 rest
  end.

Definition MatchName (this : ServerConfig) (name : string) : string * bool :=
  if String.eqb name "" then ("", false)
  else match_names name (strings_Split name ".") (Name this).

(** ** Scheduling engine *)

(** The test of the loop of [SetupScheduling]. *)
Definition schedulable (isBackup : bool) (backend : Backend) : bool :=
  if ServerBackendConfig.On backend && negb (ServerBackendConfig.IsDown backend)
  then
    if isBackup && ServerBackendConfig.IsBackup backend then true
    else if negb isBackup && negb (ServerBackendConfig.IsBackup backend)
    then true
    else false
  else false.

Definition SetupScheduling (isBackup : bool) : M unit :=
  (if negb isBackup then fun body => emit EvLock >>> defer (emit EvUnlock) body
   else fun body => body)
  (modify (set_schedulingIsBackup isBackup) >>>
   let* this := get in
   match Scheduling this with
   | None => assign_schedulingObject RandomScheduling
   | Some config =>
       let typeCode := SchedulingConfig.Code config in
       match FindSchedulingType typeCode with
       | None =>
           modify (set_Scheduling None) >>>
           assign_schedulingObject RandomScheduling
       | Some instance => assign_schedulingObject instance
       end
   end >>>
   let* this := get in
   for_range (Backends this)
     (fun backend =>
        if schedulable isBackup backend then call_Add backend else ret tt) >>>
   call_Start).

(** [options[k] = v]: assignment to an entry of a [nil] map panics. *)
Definition map_assign (options : maps_Map Value) (k : string) (v : Value)
    : Res (maps_Map Value) :=
  match options with
  | None => Panic "assignment to entry in nil map"
  | Some entries => Ok (Some (<[k := v]> entries))
  end.

(** [for k, v := range static { options[k] = v }] *)
Definition merge_options (static : gmap string Value)
    (options : maps_Map Value) : Res (maps_Map Value) :=
  map_fold
    (fun k v acc =>
       match acc with
       | Ok options => map_assign options k v
       | Panic msg => Panic msg
       end)
    (Ok options) static.

(** [NextBackend] returns the candidate; the map [options] is the
    caller's object, so its content at the return is returned next to
    the candidate. *)
Definition NextBackend (options : maps_Map Value)
    : M (option Backend * maps_Map Value) :=
  emit EvLock >>>
  defer (emit EvUnlock)
    (let* this := get in
     match schedulingObject this with
     | None => ret (None, options)
     | Some _ =>
         let* options :=
           match Scheduling this with
           | Some config =>
               lift (merge_options (SchedulingConfig.Options config) options)
           | None => ret options
           end in
         let* candidate := call_Next options in
         match candidate with
         | Some backend => ret (Some backend, options)
         | None =>
             let* this := get in
             if negb (schedulingIsBackup this) then
               SetupScheduling true >>>
               let* candidate := call_Next options in
               match candidate with
               | None => ret (None, options)
               | Some backend => ret (Some backend, options)
               end
             else ret (None, options)
         end
     end).

(** ** Validation *)

(** [for _, x := range l { err := x.Validate(); if err != nil { return err } }]:
    the elements are validated in order, in place, up to the first error. *)
Fixpoint validate_range {A} (validate : A -> A * option error) (l : list A)
    : list A * option error :=
  match l with
  | [] => ([], None)
  | x :: rest =>
      match validate x with
      | (x', Some err) => (x' :: rest, Some err)
      | (x', None) =>
          let '(rest', err) := validate_range validate rest in
          (x' :: rest', err)
      end
  end.

(** [err := step; if err != nil { return err }; rest] *)
Notation "'check!' step 'in' rest" :=
  (bind step (fun err => match err with
                         | Some e => ret (Some e)
                         | None => rest
                         end))
  (at level 10, step at level 100, rest at level 200, only parsing).

Definition validate_SSL : M (option error) :=
  let* this := get in
  match SSL this with
  | None => ret None
  | Some ssl =>
      let '(ssl', err) := SSLConfig_Validate ssl in
      modify (set_SSL (Some ssl')) >>> ret err
  end.

Definition validate_Backends : M (option error) :=
  let* this := get in
  let '(backends, err) := validate_range Backend_Validate (Backends this) in
  modify (set_Backends backends) >>> ret err.

Definition validate_Locations : M (option error) :=
  let* this := get in
  let '(locations, err) := validate_range Location_Validate (Locations this) in
  modify (set_Locations locations) >>> ret err.

Definition this_ValidateFastcgi : M (option error) :=
  let* this := get in
  let '(list, err) := ValidateFastcgi (FastcgiList this) in
  modify (set_FastcgiList list) >>> ret err.

Definition this_ValidateRewriteRules : M (option error) :=
  let* this := get in
  let '(list, err) := ValidateRewriteRules (RewriteList this) in
  modify (set_RewriteList list) >>> ret err.

Definition this_ValidateHeaders : M (option error) :=
  let* this := get in
  let '(list, err) := ValidateHeaders (HeaderList this) in
  modify (set_HeaderList list) >>> ret err.

(** The cache-policy step: nothing is done for an empty name, nor when
    the named policy cannot be loaded. *)
Definition validate_CachePolicy : M (option error) :=
  let* this := get in
  if negb (String.eqb (CachePolicy this) "") then
    match NewCachePolicyFromFile (CachePolicy this) with
    | Some policy =>
        match CachePolicy_Validate policy with
        | (_, Some err) => ret (Some err)
        | (policy', None) =>
            modify (set_cachePolicy (Some policy')) >>> ret None
        end
    | None => ret None
    end
  else ret None.

Definition validate_API : M (option error) :=
  (let* this := get in
   match API this with
   | None => modify (set_API (Some NewAPIConfig))
   | Some _ => ret tt
   end) >>>
  let* this := get in
  match API this with
  | None => panic "invalid memory address or nil pointer dereference"
  | Some config =>
      let '(config', err) := APIConfig_Validate config in
      modify (set_API (Some config')) >>> ret err
  end.

Definition Validate : M (option error) :=
  check! validate_SSL in
  check! validate_Backends in
  SetupScheduling false >>>
  check! validate_Locations in
  check! this_ValidateFastcgi in
  check! this_ValidateRewriteRules in
  check! this_ValidateHeaders in
  check! validate_CachePolicy in
  check! validate_API in
  ret None.

(** ** Scoped resolvers *)

(** [shared.HeaderListInterface]: the dynamic types the resolver returns,
    each with the object found. *)
Inductive HeaderListInterface : Type :=
  | OfServerConfig
  | OfLocationConfig (location : LocationConfig)
  | OfServerBackendConfig (backend : Backend)
  | OfRewriteRule (rewrite : RewriteRule)
  | OfFastcgiConfig (fastcgi : FastcgiConfig).

Definition err_location : error := "找不到要修改的location".
Definition err_rewrite : error := "找不到要修改的rewrite".
Definition err_fastcgi : error := "找不到要修改的Fastcgi".
Definition err_backend : error := "找不到要修改的Backend".

(** The two named results [(headerList, err)]. *)
Definition found (headerList : HeaderListInterface)
    : M (option HeaderListInterface * option error) :=
  ret (Some headerList, None).
Definition not_found (err : error)
    : M (option HeaderListInterface * option error) :=
  ret (None, Some err).

Definition FindHeaderList (locationId backendId rewriteId fastcgiId : string)
    : M (option HeaderListInterface * option error) :=
  if negb (String.eqb rewriteId "") then
    if negb (String.eqb locationId "") then
      let* location := FindLocation locationId in
      match location with
      | None => not_found err_location
      | Some location =>
          match Location_FindRewriteRule location rewriteId with
          | None => not_found err_rewrite
          | Some rewrite => found (OfRewriteRule rewrite)
          end
      end
    else
      let* this := get in
      match FindRewriteRule (RewriteList this) rewriteId with
      | None => not_found err_rewrite
      | Some rewrite => found (OfRewriteRule rewrite)
      end
  else if negb (String.eqb fastcgiId "") then
    if negb (String.eqb locationId "") then
      let* location := FindLocation locationId in
      match location with
      | None => not_found err_location
      | Some location =>
          match Location_FindFastcgi location fastcgiId with
          | None => not_found err_fastcgi
          | Some fastcgi => found (OfFastcgiConfig fastcgi)
          end
      end
    else
      let* this := get in
      match FindFastcgi (FastcgiList this) fastcgiId with
      | None => not_found err_fastcgi
      | Some fastcgi => found (OfFastcgiConfig fastcgi)
      end
  else if negb (String.eqb backendId "") then
    if negb (String.eqb locationId "") then
      let* location := FindLocation locationId in
      match location with
      | None => not_found err_location
      | Some location =>
          match Location_FindBackend location backendId with
          | None => not_found err_backend
          | Some backend => found (OfServerBackendConfig backend)
          end
      end
    else
      let* this := get in
      match FindBackend this backendId with
      | None => not_found err_backend
      | Some backend => found (OfServerBackendConfig backend)
      end
  else if negb (String.eqb locationId "") then
    let* location := FindLocation locationId in
    match location with
    | None => not_found err_location
    | Some location => found (OfLocationConfig location)
    end
  else found OfServerConfig.

End ServerConfig.

Arguments Event Value : clear implicits.

(** The notations of the monad, for the statements below. *)
Notation "'let*' x ':=' m 'in' k" := (bind m (fun x => k))
  (at level 10, x name, m at level 100, k at level 200, only parsing).
Notation "m >>> k" := (bind m (fun _ => k))
  (at level 90, right associativity, only parsing).
Notation "'check!' step 'in' rest" :=
  (bind step (fun err => match err with
                         | Some e => ret (Some e)
                         | None => rest
                         end))
  (at level 10, step at level 100, rest at level 200, only parsing).

(** Running a method on a receiver, from an empty log. *)
Definition run {Value : Type} `{!SchedulingPackage Value} `{!Collaborators}
    {A : Type} (m : M A) (this : ServerConfig) : Res A * State :=
  m (MkState this []).

(** ** The other methods of [ServerConfig]

    The collection helpers, the lookups by index and by id, and the two
    resolvers with one identifier. *)

(** [strings.Contains(s, c)] for a one-byte [c]. *)
Fixpoint strings_ContainsByte (s : string) (c : ascii) : bool :=
  match s with
  | EmptyString => false
  | String d rest => Ascii.eqb d c || strings_ContainsByte rest c
  end.

Section OtherMethods.

Context {Value : Type} `{!SchedulingPackage Value} `{!Collaborators}.

Definition set_Name (v : list string) (this : ServerConfig) : ServerConfig :=
  Build_ServerConfig (HeaderList this) (FastcgiList this) (RewriteList this)
    (On this) (Id this) (Description this) v (Listen this) (Backends this)
    (Scheduling this) (Locations this) (SSL this) (Filename this)
    (CachePolicy this) (cachePolicy this) (API this)
    (schedulingIsBackup this) (schedulingObject this).
Definition set_Listen (v : list string) (this : ServerConfig) : ServerConfig :=
  Build_ServerConfig (HeaderList this) (FastcgiList this) (RewriteList this)
    (On this) (Id this) (Description this) (Name this) v (Backends this)
    (Scheduling this) (Locations this) (SSL this) (Filename this)
    (CachePolicy this) (cachePolicy this) (API this)
    (schedulingIsBackup this) (schedulingObject this).

(** [AddName(name ...string)]: the names are appended. *)
Definition AddName (name : list string) : M unit :=
  modify (fun this => set_Name (Name this ++ name) this).

Definition AddListen (address : string) : M unit :=
  modify (fun this => set_Listen (Listen this ++ [address]) this).

Definition AddBackend (config : Backend) : M unit :=
  modify (fun this => set_Backends (Backends this ++ [config]) this).

(** The loop of [DeleteBackend]: the backends with another id, in order. *)
Fixpoint delete_backend (backends : list Backend) (backendId : string)
    : list Backend :=
  match backends with
  | [] => []
  | backend :: rest =>
      if String.eqb (ServerBackendConfig.Id backend) backendId
      then delete_backend rest backendId
      else backend :: delete_backend rest backendId
  end.

Definition DeleteBackend (backendId : string) : M unit :=
  modify (fun this =>
            set_Backends (delete_backend (Backends this) backendId) this).

(** [LocationAtIndex(index int)]: [nil] out of the bounds; otherwise the
    location at the index, validated in place (the error is dropped). *)
Definition LocationAtIndex (index : Z) : M (option LocationConfig) :=
  if (index <? 0)%Z then ret None
  else
    let* this := get in
    if (index >=? Z.of_nat (length (Locations this)))%Z then ret None
    else
      match Locations this !! Z.to_nat index with
      | None => panic "index out of range"
      | Some location =>
          let location' := fst (Location_Validate location) in
          modify (set_Locations
                    (<[Z.to_nat index := location']> (Locations this))) >>>
          ret (Some location')
      end.

(** The loop of [FirstName]. *)
Fixpoint first_name (names : list string) : string :=
  match names with
  | [] => ""
  | name :: rest =>
      if strings_ContainsByte name "*" then first_name rest else name
  end.

Definition FirstName (this : ServerConfig) : string := first_name (Name this).

Definition AddLocation (location : LocationConfig) : M unit :=
  modify (fun this => set_Locations (Locations this ++ [location]) this).

Definition CachePolicyObject (this : ServerConfig) : option shared_CachePolicy :=
  cachePolicy this.

(** The loop of [RemoveLocation]: the locations with another id, in order. *)
Fixpoint remove_location (locations : list LocationConfig) (locationId : string)
    : list LocationConfig :=
  match locations with
  | [] => []
  | location :: rest =>
      if String.eqb (Location_Id location) locationId
      then remove_location rest locationId
      else location :: remove_location rest locationId
  end.

Definition RemoveLocation (locationId : string) : M unit :=
  modify (fun this =>
            set_Locations (remove_location (Locations this) locationId) this).

(** [FastcgiListInterface] and [RewriteListInterface]: the server itself
    or one of its locations. *)
Inductive FastcgiListInterface : Type :=
  | FastcgiOfServerConfig
  | FastcgiOfLocationConfig (location : LocationConfig).

Inductive RewriteListInterface : Type :=
  | RewriteOfServerConfig
  | RewriteOfLocationConfig (location : LocationConfig).

Definition FindFastcgiList (locationId : string)
    : M (option FastcgiListInterface * option error) :=
  if negb (String.eqb locationId "") then
    let* location := FindLocation locationId in
    match location with
    | None => ret (None, Some err_location)
    | Some location => ret (Some (FastcgiOfLocationConfig location), None)
    end
  else ret (Some FastcgiOfServerConfig, None).

Definition FindRewriteList (locationId : string)
    : M (option RewriteListInterface * option error) :=
  if negb (String.eqb locationId "") then
    let* location := FindLocation locationId in
    match location with
    | None => ret (None, Some err_location)
    | Some location => ret (Some (RewriteOfLocationConfig location), None)
    end
  else ret (Some RewriteOfServerConfig, None).

(** One method after another, on the same receiver. *)
Definition then_ {A B} (first : M A) (second : M B) : M B :=
  first >>> second.

End OtherMethods.

(** ** A concrete configuration tree

    Small instances of the two interfaces, on which the methods run: two
    scheduling algorithms (the default one, and one that picks by the
    option ["key"]), validators that accept what is flagged valid, and
    locations that hold their own backends. *)
Module Sample.

Record algorithm : Type := MkAlgorithm {
  by_key : bool;
  candidates : list Backend;
  started : bool
}.

(** The default algorithm returns its first candidate; the keyed one
    the candidate at the index stored under ["key"] (the first one when
    there is no such option). *)
Definition algorithm_Next (a : algorithm) (options : maps_Map nat)
    : option Backend * algorithm :=
  let index :=
    if by_key a then
      match options with
      | Some entries => default 0 (entries !! "key")
      | None => 0
      end
    else 0 in
  (nth_error (candidates a) index, a).

#[export] Instance scheduling : SchedulingPackage nat := {|
  SchedulingInterface := algorithm;
  Add a backend := MkAlgorithm (by_key a) (candidates a ++ [backend]) (started a);
  Start a := MkAlgorithm (by_key a) (candidates a) true;
  Next := algorithm_Next;
  FindSchedulingType code :=
    if String.eqb code "key" then Some (MkAlgorithm true [] false) else None;
  RandomScheduling := MkAlgorithm false [] false
|}.

Record location : Type := MkLocation {
  location_id : string;
  location_backends : list Backend;
  location_rewrites : list string;
  location_fastcgis : list string;
  location_validated : bool
}.

Definition find_string (l : list string) (id : string) : option string :=
  List.find (String.eqb id) l.

Definition find_in (backends : list Backend) (id : string) : option Backend :=
  List.find (fun b => String.eqb (ServerBackendConfig.Id b) id) backends.

(** A sub-configuration is a flag: valid or not. *)
Definition validate_flag (what : string) (valid : bool) : bool * option error :=
  (valid, if valid then None else Some what).

#[export] Instance collaborators : Collaborators := {|
  SSLConfig := bool;
  SSLConfig_Validate := validate_flag "invalid ssl";
  Backend_Validate backend :=
    (backend,
     if String.eqb (ServerBackendConfig.Address backend) ""
     then Some "backend address should not be empty" else None);
  RewriteRule := string;
  FastcgiConfig := string;
  LocationConfig := location;
  Location_Id := location_id;
  Location_Validate l :=
    (MkLocation (location_id l) (location_backends l) (location_rewrites l)
       (location_fastcgis l) true, None);
  Location_FindRewriteRule l := find_string (location_rewrites l);
  Location_FindFastcgi l := find_string (location_fastcgis l);
  Location_FindBackend l := find_in (location_backends l);
  shared_HeaderList := bool;
  ValidateHeaders := validate_flag "invalid header";
  teaconfigs_FastcgiList := list string;
  ValidateFastcgi l := (l, None);
  FindFastcgi := find_string;
  teaconfigs_RewriteList := list string;
  ValidateRewriteRules l := (l, None);
  FindRewriteRule := find_string;
  shared_CachePolicy := bool;
  NewCachePolicyFromFile name :=
    if String.eqb name "good.policy" then Some true
    else if String.eqb name "bad.policy" then Some false
    else None;
  CachePolicy_Validate := validate_flag "invalid cache policy";
  api_APIConfig := bool;
  NewAPIConfig := true;
  APIConfig_Validate := validate_flag "invalid api"
|}.

Definition backend (id : string) (on down backup : bool) : Backend :=
  ServerBackendConfig.Build id (String.append "127.0.0.1:" id) 1 on down backup.

Definition B1 : Backend := backend "B1" true false false.
Definition B2 : Backend := backend "B2" true true false.
Definition B3 : Backend := backend "B3" true false true.
Definition B4 : Backend := backend "B4" false false true.

Definition L1 : location := MkLocation "L1" [B3] ["R1"] ["F1"] false.

(** A server with the given names, backends, scheduling choice and
    cache-policy name, not yet validated. *)
Definition server (names : list string) (backends : list Backend)
    (scheduling : option (SchedulingConfig.t nat)) (policy : string)
    : ServerConfig :=
  Build_ServerConfig true ["F0"] ["R0"] true "server" "a server" names
    ["127.0.0.1:80"] backends scheduling [L1] None "" policy None (Some true)
    false None.

Definition B5 : Backend := backend "B5" true false false.

(** The scheduling choices: by the option ["key"], with the static
    option ["key" := 1]; and one whose code the registry does not know. *)
Definition keyed : SchedulingConfig.t nat :=
  SchedulingConfig.Build "key" {["key" := 1]}.
Definition unknown : SchedulingConfig.t nat :=
  SchedulingConfig.Build "does-not-exist" (∅ : gmap string nat).

(** Two primary backends that can serve ([B1], [B5]) and a backup. *)
Definition balanced : ServerConfig :=
  server ["*.a.com"; "www.a.com"] [B1; B2; B3; B4; B5] (Some keyed) "".

(** The same server once [SetupScheduling(false)] has run. *)
Definition ready : ServerConfig :=
  receiver (snd (run (SetupScheduling false) balanced)).

(** No primary backend can serve; the backup [B3] can. *)
Definition primary_down : ServerConfig :=
  receiver (snd (run (SetupScheduling false)
                   (server ["a.com"] [B2; B3; B4] None ""))).

Definition downgraded : ServerConfig :=
  server ["a.com"] [B1; B3] (Some unknown) "".

Definition with_policy (policy : string) : ServerConfig :=
  server ["a.com"] [B1; B3] None policy.

(** The server above after the call of [NextBackend] that fails over. *)
Definition failed_over : ServerConfig :=
  receiver (snd (run (NextBackend (Some (∅ : gmap string nat))) primary_down)).

(** A backend without address, which its validation refuses. *)
Definition B0 : Backend :=
  ServerBackendConfig.Build "B0" "" 1 true false false.

Definition misconfigured : ServerConfig :=
  server ["a.com"] [B1; B0; B3] None "".

End Sample.

(** ** Vocabulary of the properties *)

(** The comparison of one input segment with one pattern segment, and of
    a name with a pattern, as the specification words them: the same
    number of dot-separated segments, each input segment equal to the
    pattern's, or the pattern's being ["*"] or empty. *)
Definition segment_matches (input pattern : string) : Prop :=
  input = pattern \/ pattern = "*" \/ pattern = "".

Definition matches_segmentwise (name pattern : string) : Prop :=
  Forall2 segment_matches (strings_Split name ".") (strings_Split pattern ".").

Section Vocabulary.

Context {Value : Type} `{!SchedulingPackage Value} `{!Collaborators}.

(** A backend of the requested tier that can serve: enabled, not down,
    and its [IsBackup] flag equal to the tier flag. *)
Definition in_tier (isBackup : bool) (backend : Backend) : bool :=
  ServerBackendConfig.On backend
  && negb (ServerBackendConfig.IsDown backend)
  && Bool.eqb (ServerBackendConfig.IsBackup backend) isBackup.

(** The fresh instance a configuration selects: the registry's for a
    recognized code, the default one otherwise. *)
Definition selected_instance (scheduling : option (SchedulingConfig.t Value))
    : SchedulingInterface :=
  match scheduling with
  | None => RandomScheduling
  | Some config =>
      default RandomScheduling
        (FindSchedulingType (SchedulingConfig.Code config))
  end.

(** The scheduling choice that is kept: one with a recognized code. *)
Definition recognized (scheduling : option (SchedulingConfig.t Value))
    : option (SchedulingConfig.t Value) :=
  match scheduling with
  | None => None
  | Some config =>
      match FindSchedulingType (SchedulingConfig.Code config) with
      | None => None
      | Some _ => Some config
      end
  end.

(** The instance that holds exactly the backends of a tier, started. *)
Definition pool_of (isBackup : bool) (this : ServerConfig) : list Backend :=
  List.filter (in_tier isBackup) (Backends this).

Definition rebuilt (isBackup : bool) (this : ServerConfig)
    : SchedulingInterface :=
  Start (fold_left Add (pool_of isBackup this)
           (selected_instance (Scheduling this))).

(** The events of one rebuild, without the mutex operations. *)
Definition rebuild_events (isBackup : bool) (this : ServerConfig)
    : list (Event Value) :=
  EvAssign :: map EvAdd (pool_of isBackup this) ++ [EvStart].

(** The receiver after [SetupScheduling]. *)
Definition after_SetupScheduling (isBackup : bool) (this : ServerConfig)
    : ServerConfig :=
  set_schedulingObject (Some (rebuilt isBackup this))
    (set_Scheduling (recognized (Scheduling this))
       (set_schedulingIsBackup isBackup this)).

(** The options the algorithm is given: the caller's map after the
    static options were written into it. *)
Definition merged_options (this : ServerConfig) (options : maps_Map Value)
    : Res (maps_Map Value) :=
  match Scheduling this with
  | Some config => merge_options (SchedulingConfig.Options config) options
  | None => Ok options
  end.

(** An operation on [schedulingLocker]. *)
Definition mutex_event (e : Event Value) : bool :=
  match e with
  | EvLock | EvUnlock => true
  | _ => false
  end.

(** The arguments of the calls of [Next] in a log, in order. *)
Definition Next_arguments (events : list (Event Value)) : list (maps_Map Value) :=
  omap (fun e => match e with EvNext options => Some options | _ => None end)
    events.

(** The verdicts of the checks that [Validate] runs before the cache
    policy, each on its own part of the receiver, and that of the last
    check, on the API configuration (a new one when there is none). *)
Definition SSL_verdict (this : ServerConfig) : option error :=
  match SSL this with
  | None => None
  | Some ssl => snd (SSLConfig_Validate ssl)
  end.

Definition Backends_verdict (this : ServerConfig) : option error :=
  snd (validate_range Backend_Validate (Backends this)).

Definition validated_Backends (this : ServerConfig) : list Backend :=
  fst (validate_range Backend_Validate (Backends this)).

Definition earlier_checks_pass (this : ServerConfig) : Prop :=
  SSL_verdict this = None
  /\ Backends_verdict this = None
  /\ snd (validate_range Location_Validate (Locations this)) = None
  /\ snd (ValidateFastcgi (FastcgiList this)) = None
  /\ snd (ValidateRewriteRules (RewriteList this)) = None
  /\ snd (ValidateHeaders (HeaderList this)) = None.

Definition API_verdict (this : ServerConfig) : option error :=
  snd (APIConfig_Validate (default NewAPIConfig (API this))).

(** The part of the receiver the scheduling engine owns. *)
Definition engine (this : ServerConfig)
    : option (SchedulingConfig.t Value) * option SchedulingInterface :=
  (Scheduling this, schedulingObject this).

(** The branches of the scoped resolvers, the one the four identifiers
    decide (the first non-empty one in the order rewrite, fastcgi,
    backend, location), and the answers that belong to a branch: an
    object of its scope or a "not found" error, for the location when
    one was named or for the scope itself. *)
Inductive Branch : Type :=
  | RewriteBranch
  | FastcgiBranch
  | BackendBranch
  | LocationBranch
  | ServerBranch.

Definition decided_branch (locationId backendId rewriteId fastcgiId : string)
    : Branch :=
  if decide (rewriteId <> "") then RewriteBranch
  else if decide (fastcgiId <> "") then FastcgiBranch
  else if decide (backendId <> "") then BackendBranch
  else if decide (locationId <> "") then LocationBranch
  else ServerBranch.

Definition answer_of (branch : Branch) (locationId : string)
    (result : option HeaderListInterface * option error) : Prop :=
  (locationId <> "" /\ branch <> ServerBranch
   /\ result = (None, Some err_location))
  \/ match branch with
     | RewriteBranch =>
         result = (None, Some err_rewrite)
         \/ exists rewrite, result = (Some (OfRewriteRule rewrite), None)
     | FastcgiBranch =>
         result = (None, Some err_fastcgi)
         \/ exists fastcgi, result = (Some (OfFastcgiConfig fastcgi), None)
     | BackendBranch =>
         result = (None, Some err_backend)
         \/ exists backend,
              result = (Some (OfServerBackendConfig backend), None)
     | LocationBranch =>
         exists location, result = (Some (OfLocationConfig location), None)
     | ServerBranch => result = (Some OfServerConfig, None)
     end.

(** What [FindLocation] returns: the first location with the id, after
    its validation. *)
Definition located (this : ServerConfig) (locationId : string)
    : option LocationConfig :=
  fst (find_location (Locations this) locationId).

End Vocabulary.

(** ** Vocabulary of the further properties *)

(** A name with a ["*"] in it. *)
Definition has_star (name : string) : Prop :=
  In "*"%char (list_ascii_of_string name).

Section FurtherVocabulary.

Context {Value : Type} `{!SchedulingPackage Value} `{!Collaborators}.

(** The fields of the receiver that the scheduling engine does not own. *)
Definition settings (this : ServerConfig) :=
  (HeaderList this, FastcgiList this, RewriteList this, On this, Id this,
   Description this, Name this, Listen this, Backends this, Locations this,
   SSL this, Filename this, CachePolicy this, cachePolicy this, API this).

(** The first error in a list of verdicts. *)
Fixpoint first_error (verdicts : list (option error)) : option error :=
  match verdicts with
  | [] => None
  | Some err :: _ => Some err
  | None :: rest => first_error rest
  end.

(** The verdict of the cache-policy check: that of the named policy, when
    there is a name and the policy can be loaded. *)
Definition CachePolicy_verdict (this : ServerConfig) : option error :=
  if String.eqb (CachePolicy this) "" then None
  else
    match NewCachePolicyFromFile (CachePolicy this) with
    | None => None
    | Some policy => snd (CachePolicy_Validate policy)
    end.

(** The verdicts of all the checks of [Validate], in its order. *)
Definition verdicts (this : ServerConfig) : list (option error) :=
  [ SSL_verdict this;
    Backends_verdict this;
    snd (validate_range Location_Validate (Locations this));
    snd (ValidateFastcgi (FastcgiList this));
    snd (ValidateRewriteRules (RewriteList this));
    snd (ValidateHeaders (HeaderList this));
    CachePolicy_verdict this;
    API_verdict this ].

(** The policy the cache-policy check assigns, if it assigns one: the
    named policy, loaded and valid. *)
Definition resolved_policy (this : ServerConfig) : option shared_CachePolicy :=
  if String.eqb (CachePolicy this) "" then None
  else
    match NewCachePolicyFromFile (CachePolicy this) with
    | None => None
    | Some policy =>
        match CachePolicy_Validate policy with
        | (policy', None) => Some policy'
        | (_, Some _) => None
        end
    end.

(** What identifies the server and what it answers to: no check of
    [Validate] touches these. *)
Definition identity (this : ServerConfig) :=
  (On this, Id this, Description this, Name this, Listen this,
   Filename this, CachePolicy this).

(** The SSL configuration after its check. *)
Definition validated_SSL (this : ServerConfig) : option SSLConfig :=
  match SSL this with
  | Some ssl => Some (fst (SSLConfig_Validate ssl))
  | None => None
  end.

End FurtherVocabulary.

(** * Properties *)

(** ** The domain matcher *)

Lemma segment_test (input piece : string) :
  negb (String.eqb input piece) && negb (String.eqb piece "*")
    && negb (String.eqb piece "") = false
  <-> segment_matches input piece.
Proof.
  unfold segment_matches.
  destruct (String.eqb_spec input piece) as [Heq|Hne];
    destruct (String.eqb_spec piece "*") as [Hstar|Hstar];
    destruct (String.eqb_spec piece "") as [Hemp|Hemp];
    simpl; split; intros Hx; auto; try discriminate.
  destruct Hx as [?|[?|?]]; congruence.
Qed.

(** The indexed loop is the lockstep comparison of the two lists of
    pieces, when the pattern's pieces are as many as the input's from
    [index] on. *)
Lemma match_pieces_spec (pieces2 pieces1 : list string) (index : nat) :
  length pieces1 = index + length pieces2 ->
  match_pieces pieces1 index pieces2 = true
  <-> Forall2 segment_matches (drop index pieces1) pieces2.
Proof.
  revert index. induction pieces2 as [|piece rest IH]; intros index Hlen.
  - simpl in *. rewrite drop_ge by lia. split; [constructor|reflexivity].
  - simpl in Hlen.
    destruct (lookup_lt_is_Some_2 pieces1 index) as [input Hin]; [lia|].
    rewrite (drop_S _ _ _ Hin). simpl.
    assert (nth index pieces1 "" = input) as ->.
    { apply nth_lookup_Some with (d := ""). exact Hin. }
    destruct (negb (input =? piece)%string && negb (piece =? "*")%string
              && negb (piece =? "")%string) eqn:Htest.
    + split; [discriminate|]. intros HF. inversion HF as [|? ? ? ? Hseg]; subst.
      apply segment_test in Hseg. congruence.
    + apply segment_test in Htest. rewrite IH by lia.
      split; [intros; constructor; assumption|].
      intros HF. inversion HF; subst. assumption.
Qed.

Lemma match_pieces_segmentwise (name pattern : string) :
  length (strings_Split name ".") = length (strings_Split pattern ".") ->
  match_pieces (strings_Split name ".") 0 (strings_Split pattern ".") = true
  <-> matches_segmentwise name pattern.
Proof.
  intros Hlen. rewrite match_pieces_spec by (simpl; lia). reflexivity.
Qed.

Lemma matches_segmentwise_dec (name pattern : string) :
  matches_segmentwise name pattern \/ ~ matches_segmentwise name pattern.
Proof.
  destruct (Nat.eq_dec (length (strings_Split name "."))
              (length (strings_Split pattern "."))) as [Hlen|Hlen].
  - destruct (match_pieces (strings_Split name ".") 0 (strings_Split pattern "."))
      eqn:Hm.
    + left. apply match_pieces_segmentwise; assumption.
    + right. intros Hseg. apply match_pieces_segmentwise in Hseg; congruence.
  - right. intros Hseg. apply Hlen. exact (Forall2_length _ _ _ Hseg).
Qed.

Lemma matches_segmentwise_refl (name : string) : matches_segmentwise name name.
Proof.
  unfold matches_segmentwise. induction (strings_Split name ".").
  - constructor.
  - constructor; [left; reflexivity|assumption].
Qed.

Section MatchName.

Context {Value : Type} `{!SchedulingPackage Value} `{!Collaborators}.

(** What one turn of the outer loop does with a pattern. *)
Lemma match_names_skip (name testName : string) (rest : list string) :
  testName = "" \/ ~ matches_segmentwise name testName ->
  match_names name (strings_Split name ".") (testName :: rest)
  = match_names name (strings_Split name ".") rest.
Proof.
  intros Hskip. simpl.
  destruct (String.eqb_spec testName "") as [|Hne]; [reflexivity|].
  destruct Hskip as [|Hno]; [contradiction|].
  destruct (String.eqb_spec name testName) as [->|Hneq].
  { exfalso. apply Hno, matches_segmentwise_refl. }
  destruct (Nat.eqb_spec (length (strings_Split name "."))
              (length (strings_Split testName "."))) as [Hlen|Hlen]; simpl;
    [|reflexivity].
  destruct (match_pieces _ 0 _) eqn:Hm; [|reflexivity].
  apply match_pieces_segmentwise in Hm; [contradiction|assumption].
Qed.

Lemma match_names_exact (name : string) (rest : list string) :
  name <> "" ->
  match_names name (strings_Split name ".") (name :: rest) = (name, true).
Proof.
  intros Hne. simpl.
  destruct (String.eqb_spec name "") as [|_]; [contradiction|].
  rewrite String.eqb_refl. reflexivity.
Qed.

Lemma match_names_wildcard (name testName : string) (rest : list string) :
  testName <> "" -> name <> testName -> matches_segmentwise name testName ->
  match_names name (strings_Split name ".") (testName :: rest) = ("", true).
Proof.
  intros Hne Hneq Hseg. simpl.
  destruct (String.eqb_spec testName "") as [|_]; [contradiction|].
  destruct (String.eqb_spec name testName) as [|_]; [contradiction|].
  pose proof (Forall2_length _ _ _ Hseg) as Hlen.
  rewrite Hlen, Nat.eqb_refl. simpl.
  apply match_pieces_segmentwise in Hseg; [|assumption].
  rewrite Hseg. reflexivity.
Qed.

Lemma match_names_prefix (name : string) (before rest : list string) :
  (forall p, In p before -> p = "" \/ ~ matches_segmentwise name p) ->
  match_names name (strings_Split name ".") (before ++ rest)
  = match_names name (strings_Split name ".") rest.
Proof.
  induction before as [|q before IH]; intros Hskip; [reflexivity|].
  rewrite <- app_comm_cons, match_names_skip by (apply Hskip; left; reflexivity).
  apply IH. intros p Hp. apply Hskip. right. assumption.
Qed.

(** The patterns are tried in order and the first one that matches
    decides: the result is the name itself or the empty string. *)
Lemma match_names_matched (name : string) (names : list string) :
  name <> "" ->
  (exists p, In p names /\ p <> "" /\ matches_segmentwise name p) ->
  snd (match_names name (strings_Split name ".") names) = true
  /\ (fst (match_names name (strings_Split name ".") names) = name
      \/ fst (match_names name (strings_Split name ".") names) = "").
Proof.
  intros Hne. induction names as [|q names IH]; intros (p & Hin & Hp & Hseg).
  { destruct Hin. }
  destruct (String.eqb_spec q "") as [Hq|Hq].
  { rewrite match_names_skip by (left; assumption).
    apply IH. exists p. destruct Hin as [->|Hin]; [contradiction|]. eauto. }
  destruct (String.eqb_spec name q) as [<-|Hneq].
  { rewrite match_names_exact by assumption. simpl. auto. }
  destruct (matches_segmentwise_dec name q) as [Hm|Hm].
  - rewrite match_names_wildcard by assumption. simpl. auto.
  - rewrite match_names_skip by (right; assumption).
    apply IH. exists p. destruct Hin as [->|Hin]; [contradiction|]. eauto.
Qed.

(** Only the exact comparison returns a pattern, and it returns the name. *)
Lemma match_names_unlisted (name : string) (pieces1 names : list string) :
  ~ In name names -> fst (match_names name pieces1 names) = "".
Proof.
  induction names as [|q names IH]; intros Hout; [reflexivity|]. simpl.
  destruct (String.eqb_spec q "") as [|_]; [apply IH; intros Hin; apply Hout; right; exact Hin|].
  destruct (String.eqb_spec name q) as [->|_].
  { exfalso. apply Hout. left. reflexivity. }
  destruct (negb _); [apply IH; intros Hin; apply Hout; right; exact Hin|].
  destruct (match_pieces _ _ _); [reflexivity|].
  apply IH. intros Hin. apply Hout. right. exact Hin.
Qed.

(** C9 (amended): for every non-empty input name that is not exactly
    equal to any configured pattern but matches some non-empty pattern
    segment-wise (same number of dot-separated segments, each input
    segment equal to the pattern segment or the pattern segment being
    "*" or empty), MatchName returns matched=true and matchedPattern
    equal to the empty string. *)
Theorem MatchName_wildcard (this : ServerConfig) (name : string) :
  name <> "" ->
  ~ In name (Name this) ->
  (exists pattern,
     In pattern (Name this) /\ pattern <> ""
     /\ matches_segmentwise name pattern) ->
  MatchName this name = ("", true).
Proof.
  intros Hne Hout Hsome. unfold MatchName.
  destruct (String.eqb_spec name "") as [|_]; [contradiction|].
  destruct (match_names_matched name (Name this) Hne Hsome) as [Hmatched _].
  pose proof (match_names_unlisted name (strings_Split name ".") _ Hout)
    as Hpattern.
  destruct (match_names name _ (Name this)) as [pattern matched].
  simpl in *. congruence.
Qed.

(** C4 (amended): for every non-empty input name that is present
    verbatim among the configured Name patterns, MatchName returns
    matched=true, and matchedPattern is that name or the empty string;
    it is that verbatim name when no non-empty pattern configured before
    it matches the name segment-wise, whatever the patterns after it. *)
Theorem MatchName_verbatim (this : ServerConfig) (name : string) :
  name <> "" ->
  In name (Name this) ->
  snd (MatchName this name) = true
  /\ (fst (MatchName this name) = name \/ fst (MatchName this name) = "")
  /\ (forall before after,
        Name this = before ++ name :: after ->
        (forall pattern,
           In pattern before -> pattern <> "" ->
           ~ matches_segmentwise name pattern) ->
        MatchName this name = (name, true)).
Proof.
  intros Hne Hin. unfold MatchName.
  destruct (String.eqb_spec name "") as [|_]; [contradiction|].
  assert (exists p, In p (Name this) /\ p <> "" /\ matches_segmentwise name p)
    as Hsome.
  { exists name. auto using matches_segmentwise_refl. }
  destruct (match_names_matched name (Name this) Hne Hsome) as [Hmatched Hpattern].
  split; [exact Hmatched|]. split; [exact Hpattern|].
  intros before after -> Hbefore.
  rewrite match_names_prefix.
  - apply match_names_exact. exact Hne.
  - intros p Hp. destruct (String.eqb_spec p "") as [|Hpne]; [left; assumption|].
    right. apply Hbefore; assumption.
Qed.

End MatchName.

(** ** The monad *)

Section MonadSteps.

Context {Value : Type} `{!SchedulingPackage Value} `{!Collaborators}.

(** One step of a computation of [M]. *)
Lemma bind_ret {A B} (a : A) (k : A -> M B) (st : State) :
  bind (ret a) k st = k a st.
Proof. reflexivity. Qed.

Lemma bind_get {B} (k : ServerConfig -> M B) (st : State) :
  bind get k st = k (receiver st) st.
Proof. reflexivity. Qed.

Lemma bind_modify {B} (f : ServerConfig -> ServerConfig) (k : unit -> M B)
    (st : State) :
  bind (modify f) k st = k tt (MkState (f (receiver st)) (log st)).
Proof. reflexivity. Qed.

Lemma bind_emit {B} (e : Event Value) (k : unit -> M B) (st : State) :
  bind (emit e) k st = k tt (MkState (receiver st) (log st ++ [e])).
Proof. reflexivity. Qed.

Lemma bind_bind {A B C} (m : M A) (k : A -> M B) (k' : B -> M C) (st : State) :
  bind (bind m k) k' st = bind m (fun a => bind (k a) k') st.
Proof. unfold bind. destruct (m st) as [[a|msg] st']; reflexivity. Qed.

Lemma bind_Ok {A B} (m : M A) (k : A -> M B) (st st' : State) (a : A) :
  m st = (Ok a, st') -> bind m k st = k a st'.
Proof. unfold bind. intros ->. reflexivity. Qed.

Lemma bind_same {A B} (m : M A) (k : A -> M B) (st st' : State) :
  m st = m st' -> bind m k st = bind m k st'.
Proof. unfold bind. intros ->. reflexivity. Qed.

Lemma bind_Panic {A B} (m : M A) (k : A -> M B) (st st' : State) (msg : string) :
  m st = (Panic msg, st') -> bind m k st = (Panic msg, st').
Proof. unfold bind. intros ->. reflexivity. Qed.

Lemma defer_emit {A} (e : Event Value) (body : M A) (st st' : State) (r : Res A) :
  body st = (r, st') ->
  defer (emit e) body st = (r, MkState (receiver st') (log st' ++ [e])).
Proof. unfold defer. intros ->. reflexivity. Qed.

End MonadSteps.

Ltac mstep :=
  first [ rewrite bind_bind | rewrite bind_ret | rewrite bind_get
        | rewrite bind_modify | rewrite bind_emit ];
  cbv beta; cbn [receiver log].

Ltac vstep lemma := erewrite bind_Ok by apply lemma; cbv beta.

(** ** The scheduling engine *)

Section SchedulingEngine.

Context {Value : Type} `{!SchedulingPackage Value} `{!Collaborators}.

Lemma set_schedulingObject_same (this : ServerConfig) (object : SchedulingInterface) :
  schedulingObject this = Some object ->
  set_schedulingObject (Some object) this = this.
Proof. destruct this; simpl; intros ->; reflexivity. Qed.

Lemma set_schedulingObject_twice (this : ServerConfig)
    (object object' : option SchedulingInterface) :
  set_schedulingObject object (set_schedulingObject object' this)
  = set_schedulingObject object this.
Proof. reflexivity. Qed.

Lemma set_Scheduling_same (this : ServerConfig)
    (scheduling : option (SchedulingConfig.t Value)) :
  Scheduling this = scheduling -> set_Scheduling scheduling this = this.
Proof. destruct this; simpl; intros <-; reflexivity. Qed.

(** The test of the loop, in one condition. *)
Lemma schedulable_in_tier (isBackup : bool) (backend : Backend) :
  schedulable isBackup backend = in_tier isBackup backend.
Proof.
  unfold schedulable, in_tier.
  destruct (ServerBackendConfig.On backend), (ServerBackendConfig.IsDown backend),
    (ServerBackendConfig.IsBackup backend), isBackup; reflexivity.
Qed.

(** The loop over the backends adds those of the tier, in order. *)
Lemma for_range_Add (isBackup : bool) (backends : list Backend)
    (this : ServerConfig) (object : SchedulingInterface)
    (events : list (Event Value)) :
  for_range backends
    (fun backend =>
       if schedulable isBackup backend then call_Add backend else ret tt)
    (MkState (set_schedulingObject (Some object) this) events)
  = (Ok tt,
     MkState
       (set_schedulingObject
          (Some (fold_left Add (List.filter (in_tier isBackup) backends) object))
          this)
       (events ++ map EvAdd (List.filter (in_tier isBackup) backends))).
Proof.
  revert object events.
  induction backends as [|backend rest IH]; intros object events; simpl.
  - rewrite app_nil_r. reflexivity.
  - rewrite <- schedulable_in_tier.
    destruct (schedulable isBackup backend); unfold bind; simpl.
    + change (MkState _ (events ++ [EvAdd backend]))
        with (MkState (set_schedulingObject (Some (Add object backend)) this)
                (events ++ [EvAdd backend])).
      rewrite IH, <- app_assoc. reflexivity.
    + apply IH.
Qed.

Lemma for_range_Add_from (isBackup : bool) (backends : list Backend)
    (this : ServerConfig) (object : SchedulingInterface)
    (events : list (Event Value)) :
  schedulingObject this = Some object ->
  for_range backends
    (fun backend =>
       if schedulable isBackup backend then call_Add backend else ret tt)
    (MkState this events)
  = (Ok tt,
     MkState
       (set_schedulingObject
          (Some (fold_left Add (List.filter (in_tier isBackup) backends) object))
          this)
       (events ++ map EvAdd (List.filter (in_tier isBackup) backends))).
Proof.
  intros Hobject.
  rewrite <- (set_schedulingObject_same this object Hobject) at 1.
  apply for_range_Add.
Qed.

Lemma bind_assign {B} (instance : SchedulingInterface) (k : unit -> M B)
    (st : State) :
  bind (assign_schedulingObject instance) k st
  = k tt (MkState (set_schedulingObject (Some instance) (receiver st))
            (log st ++ [EvAssign])).
Proof. reflexivity. Qed.

Lemma call_Start_spec (this : ServerConfig) (events : list (Event Value))
    (object : SchedulingInterface) :
  schedulingObject this = Some object ->
  call_Start (MkState this events)
  = (Ok tt, MkState (set_schedulingObject (Some (Start object)) this)
              (events ++ [EvStart])).
Proof.
  intros Hobject. unfold call_Start, schedulingObject_call.
  repeat mstep. rewrite Hobject. repeat mstep. reflexivity.
Qed.

Lemma call_Next_spec (this : ServerConfig) (events : list (Event Value))
    (object : SchedulingInterface) (options : maps_Map Value) :
  schedulingObject this = Some object ->
  call_Next options (MkState this events)
  = (Ok (fst (Next object options)),
     MkState (set_schedulingObject (Some (snd (Next object options))) this)
       (events ++ [EvNext options])).
Proof.
  intros Hobject. unfold call_Next, schedulingObject_call.
  repeat mstep. rewrite Hobject. destruct (Next object options) as [c object'].
  repeat mstep. reflexivity.
Qed.

Lemma SetupScheduling_spec (isBackup : bool) (this : ServerConfig)
    (events : list (Event Value)) :
  SetupScheduling isBackup (MkState this events)
  = (Ok tt,
     MkState (after_SetupScheduling isBackup this)
       (events ++ (if isBackup then [] else [EvLock])
          ++ rebuild_events isBackup this
          ++ (if isBackup then [] else [EvUnlock]))).
Proof.
  unfold SetupScheduling.
  match goal with
  | |- _ ?body _ = _ =>
      assert (forall events0, body (MkState this events0)
              = (Ok tt, MkState (after_SetupScheduling isBackup this)
                          (events0 ++ rebuild_events isBackup this))) as Hbody
  end.
  { intros events0. repeat mstep. cbn [Scheduling set_schedulingIsBackup].
    unfold after_SetupScheduling, rebuilt, rebuild_events, pool_of.
    destruct (Scheduling this) as [config|] eqn:Hs; cbn [recognized selected_instance];
      [destruct (FindSchedulingType (SchedulingConfig.Code config))
         as [instance|] eqn:Hf|];
      cbn [default]; repeat mstep; rewrite bind_assign; repeat mstep;
      (erewrite bind_Ok by (apply for_range_Add_from; reflexivity));
      (erewrite call_Start_spec by reflexivity);
      rewrite !set_schedulingObject_twice, <- ?app_assoc;
      rewrite ?(set_Scheduling_same (set_schedulingIsBackup isBackup this))
        by exact Hs;
      reflexivity. }
  destruct isBackup; cbn [negb].
  - rewrite Hbody, app_nil_r. reflexivity.
  - mstep. erewrite defer_emit by apply Hbody. cbn [receiver log].
    rewrite <- !app_assoc. reflexivity.
Qed.

(** Writing the static options into a map that exists gives the union in
    which the static options come first; into [nil], it panics at the
    first option. *)
Lemma merge_options_Some (static entries : gmap string Value) :
  merge_options static (Some entries) = Ok (Some (static ∪ entries)).
Proof.
  unfold merge_options.
  apply (map_fold_weak_ind
           (fun r (m : gmap string Value) => r = Ok (Some (m ∪ entries)))).
  - rewrite (left_id_L ∅ (∪)). reflexivity.
  - intros k v m r _ ->. simpl. rewrite insert_union_l. reflexivity.
Qed.

Lemma merge_options_nil (static : gmap string Value) :
  (static = ∅ -> merge_options static None = Ok None)
  /\ (static <> ∅ ->
      merge_options static None = Panic "assignment to entry in nil map").
Proof.
  unfold merge_options.
  apply (map_fold_weak_ind
           (fun r (m : gmap string Value) =>
              (m = ∅ -> r = Ok None)
              /\ (m <> ∅ -> r = Panic "assignment to entry in nil map"))).
  - split; [reflexivity|congruence].
  - intros k v m r _ [Hempty Hfull]. split.
    + intros Hm. destruct (insert_non_empty m k v Hm).
    + intros _. destruct (decide (m = ∅)) as [Hm|Hm].
      * rewrite (Hempty Hm). reflexivity.
      * rewrite (Hfull Hm). reflexivity.
Qed.

Lemma merged_options_Some (this : ServerConfig) (entries : gmap string Value) :
  merged_options this (Some entries)
  = Ok (Some (match Scheduling this with
              | Some config => SchedulingConfig.Options config ∪ entries
              | None => entries
              end)).
Proof.
  unfold merged_options. destruct (Scheduling this); [|reflexivity].
  apply merge_options_Some.
Qed.

(** *** The paths of [NextBackend] *)

(** No scheduling object: [nil], and nothing else happens. *)
Lemma NextBackend_no_object (this : ServerConfig) (options : maps_Map Value)
    (events : list (Event Value)) :
  schedulingObject this = None ->
  NextBackend options (MkState this events)
  = (Ok (None, options), MkState this (events ++ [EvLock; EvUnlock])).
Proof.
  intros Hobject. unfold NextBackend. mstep.
  erewrite defer_emit; [|mstep; rewrite Hobject; reflexivity].
  cbn [receiver log]. rewrite <- app_assoc. reflexivity.
Qed.

(** The static options cannot be written: the panic leaves the method,
    the deferred [Unlock] runs. *)
Lemma NextBackend_panic (this : ServerConfig) (options : maps_Map Value)
    (events : list (Event Value)) (object : SchedulingInterface) (msg : string) :
  schedulingObject this = Some object ->
  merged_options this options = Panic msg ->
  NextBackend options (MkState this events)
  = (Panic msg, MkState this (events ++ [EvLock; EvUnlock])).
Proof.
  intros Hobject Hmerged. unfold NextBackend. mstep.
  erewrite defer_emit.
  2:{ mstep. rewrite Hobject. unfold merged_options in Hmerged.
      destruct (Scheduling this) as [config|]; [|discriminate].
      erewrite bind_Panic; [reflexivity|]. unfold lift. rewrite Hmerged.
      reflexivity. }
  cbn [receiver log]. rewrite <- app_assoc. reflexivity.
Qed.

(** The body after the options were merged. *)
Lemma NextBackend_merged (this : ServerConfig) (options merged : maps_Map Value)
    (events : list (Event Value)) (object : SchedulingInterface)
    (k : maps_Map Value -> M (option Backend * maps_Map Value)) :
  merged_options this options = Ok merged ->
  bind
    match Scheduling this with
    | Some config =>
        lift (merge_options (SchedulingConfig.Options config) options)
    | None => ret options
    end k (MkState this events)
  = k merged (MkState this events).
Proof.
  unfold merged_options. intros Hmerged.
  destruct (Scheduling this) as [config|].
  - unfold bind, lift. rewrite Hmerged. reflexivity.
  - injection Hmerged as ->. reflexivity.
Qed.

(** The algorithm has a candidate. *)
Lemma NextBackend_candidate (this : ServerConfig) (options merged : maps_Map Value)
    (events : list (Event Value)) (object object' : SchedulingInterface)
    (backend : Backend) :
  schedulingObject this = Some object ->
  merged_options this options = Ok merged ->
  Next object merged = (Some backend, object') ->
  NextBackend options (MkState this events)
  = (Ok (Some backend, merged),
     MkState (set_schedulingObject (Some object') this)
       (events ++ [EvLock; EvNext merged; EvUnlock])).
Proof.
  intros Hobject Hmerged HNext. unfold NextBackend. mstep.
  erewrite defer_emit.
  2:{ mstep. rewrite Hobject. erewrite NextBackend_merged by eassumption.
      erewrite bind_Ok by (apply call_Next_spec; eassumption).
      rewrite HNext. reflexivity. }
  cbn [receiver log fst snd]. rewrite <- !app_assoc. reflexivity.
Qed.

(** No candidate, in backup mode already. *)
Lemma NextBackend_backup_exhausted (this : ServerConfig)
    (options merged : maps_Map Value) (events : list (Event Value))
    (object object' : SchedulingInterface) :
  schedulingObject this = Some object ->
  merged_options this options = Ok merged ->
  Next object merged = (None, object') ->
  schedulingIsBackup this = true ->
  NextBackend options (MkState this events)
  = (Ok (None, merged),
     MkState (set_schedulingObject (Some object') this)
       (events ++ [EvLock; EvNext merged; EvUnlock])).
Proof.
  intros Hobject Hmerged HNext Hbackup. unfold NextBackend. mstep.
  erewrite defer_emit.
  2:{ mstep. rewrite Hobject. erewrite NextBackend_merged by eassumption.
      erewrite bind_Ok by (apply call_Next_spec; eassumption).
      rewrite HNext. cbn [fst snd]. mstep.
      cbn [schedulingIsBackup set_schedulingObject]. rewrite Hbackup.
      reflexivity. }
  cbn [receiver log]. rewrite <- !app_assoc. reflexivity.
Qed.

(** No candidate in the primary tier: one rebuild for the backup tier
    and one more call of [Next]. *)
Lemma NextBackend_failover (this : ServerConfig)
    (options merged : maps_Map Value) (events : list (Event Value))
    (object object' : SchedulingInterface) :
  schedulingObject this = Some object ->
  merged_options this options = Ok merged ->
  Next object merged = (None, object') ->
  schedulingIsBackup this = false ->
  NextBackend options (MkState this events)
  = (Ok (fst (Next (rebuilt true this) merged), merged),
     MkState
       (set_schedulingObject (Some (snd (Next (rebuilt true this) merged)))
          (after_SetupScheduling true this))
       (events ++ [EvLock; EvNext merged] ++ rebuild_events true this
          ++ [EvNext merged; EvUnlock])).
Proof.
  intros Hobject Hmerged HNext Hbackup. unfold NextBackend. mstep.
  rewrite (defer_emit EvUnlock _ _
             (MkState
                (set_schedulingObject
                   (Some (snd (Next (rebuilt true this) merged)))
                   (after_SetupScheduling true this))
                (events ++ [EvLock; EvNext merged] ++ rebuild_events true this
                   ++ [EvNext merged]))
             (Ok (fst (Next (rebuilt true this) merged), merged))).
  { cbn [receiver log]. rewrite <- !app_assoc. reflexivity. }
  mstep. rewrite Hobject. erewrite NextBackend_merged by eassumption.
  erewrite bind_Ok by (apply call_Next_spec; eassumption).
  rewrite HNext. cbn [fst snd]. mstep.
  cbn [schedulingIsBackup set_schedulingObject]. rewrite Hbackup.
  cbn [negb]. erewrite bind_Ok by apply SetupScheduling_spec.
  erewrite bind_Ok by (apply call_Next_spec; reflexivity).
  change (rebuilt true (set_schedulingObject (Some object') this))
    with (rebuilt true this).
  change (rebuild_events true (set_schedulingObject (Some object') this))
    with (rebuild_events true this).
  change (after_SetupScheduling true (set_schedulingObject (Some object') this))
    with (after_SetupScheduling true this).
  rewrite !app_nil_r, <- !app_assoc.
  destruct (fst (Next (rebuilt true this) merged)); reflexivity.
Qed.

(** *** Facts about the vocabulary *)

Lemma Next_arguments_app (events events' : list (Event Value)) :
  Next_arguments (events ++ events')
  = Next_arguments events ++ Next_arguments events'.
Proof. apply omap_app. Qed.

Lemma Next_arguments_rebuild (isBackup : bool) (this : ServerConfig) :
  Next_arguments (rebuild_events isBackup this) = [].
Proof.
  unfold rebuild_events, Next_arguments. cbn.
  induction (pool_of isBackup this); [reflexivity|assumption].
Qed.

Lemma pool_of_tier (isBackup : bool) (this : ServerConfig) :
  Forall (fun backend =>
            ServerBackendConfig.On backend = true
            /\ ServerBackendConfig.IsDown backend = false
            /\ ServerBackendConfig.IsBackup backend = isBackup)
    (pool_of isBackup this).
Proof.
  apply List.Forall_forall. intros backend Hin.
  apply List.filter_In in Hin as [_ Htier]. unfold in_tier in Htier.
  apply andb_prop in Htier as [Htier Hflag].
  apply andb_prop in Htier as [Hon Hdown].
  apply Bool.eqb_prop in Hflag. apply Bool.negb_true_iff in Hdown. auto.
Qed.

Lemma selected_recognized (scheduling : option (SchedulingConfig.t Value)) :
  selected_instance (recognized scheduling) = selected_instance scheduling.
Proof.
  destruct scheduling as [config|]; [|reflexivity]. simpl.
  destruct (FindSchedulingType (SchedulingConfig.Code config)) eqn:Hf; simpl;
    [rewrite Hf|]; reflexivity.
Qed.

Lemma recognized_idem (scheduling : option (SchedulingConfig.t Value)) :
  recognized (recognized scheduling) = recognized scheduling.
Proof.
  destruct scheduling as [config|]; [|reflexivity]. simpl.
  destruct (FindSchedulingType (SchedulingConfig.Code config)) eqn:Hf; simpl;
    [rewrite Hf|]; reflexivity.
Qed.

Lemma after_SetupScheduling_previous (isBackup : bool) (this : ServerConfig)
    (previous : option SchedulingInterface) :
  after_SetupScheduling isBackup (set_schedulingObject previous this)
  = after_SetupScheduling isBackup this.
Proof. reflexivity. Qed.

Lemma after_SetupScheduling_idem (isBackup : bool) (this : ServerConfig) :
  after_SetupScheduling isBackup (after_SetupScheduling isBackup this)
  = after_SetupScheduling isBackup this.
Proof.
  unfold after_SetupScheduling at 1. unfold rebuilt, pool_of.
  change (Backends (after_SetupScheduling isBackup this)) with (Backends this).
  change (Scheduling (after_SetupScheduling isBackup this))
    with (recognized (Scheduling this)).
  rewrite recognized_idem, selected_recognized. reflexivity.
Qed.

(** [NextBackend] on a map that exists, with a scheduling object: it
    returns, the caller's map holds the union, and every call of [Next]
    was given that union. *)
Lemma NextBackend_on_map (this : ServerConfig) (entries merged : gmap string Value)
    (object : SchedulingInterface) :
  schedulingObject this = Some object ->
  merged_options this (Some entries) = Ok (Some merged) ->
  exists candidate st,
    run (NextBackend (Some entries)) this = (Ok (candidate, Some merged), st)
    /\ hd_error (Next_arguments (log st)) = Some (Some merged)
    /\ Forall (eq (Some merged)) (Next_arguments (log st))
    /\ (candidate = fst (Next object (Some merged))
        \/ candidate = fst (Next (rebuilt true this) (Some merged))).
Proof.
  intros Hobject Hmerged. unfold run.
  destruct (Next object (Some merged)) as [[backend|] object'] eqn:HNext.
  - erewrite NextBackend_candidate by eassumption.
    do 2 eexists. split; [reflexivity|]. cbn.
    split; [reflexivity|]. split; [repeat constructor|left; reflexivity].
  - destruct (schedulingIsBackup this) eqn:Hbackup.
    + erewrite NextBackend_backup_exhausted by eassumption.
      do 2 eexists. split; [reflexivity|]. cbn.
      split; [reflexivity|]. split; [repeat constructor|left; reflexivity].
    + erewrite NextBackend_failover by eassumption.
      do 2 eexists. split; [reflexivity|]. cbn [log app].
      change (EvLock :: EvNext (Some merged) :: ?l)
        with ([EvLock; EvNext (Some merged)] ++ l).
      rewrite !Next_arguments_app, Next_arguments_rebuild. cbn.
      split; [reflexivity|]. split; [repeat constructor|right; reflexivity].
Qed.

(** With a [nil] map from the caller and a static option to write,
    [NextBackend] panics. *)
Lemma NextBackend_nil_map (this : ServerConfig)
    (config : SchedulingConfig.t Value) (object : SchedulingInterface) :
  schedulingObject this = Some object ->
  Scheduling this = Some config ->
  SchedulingConfig.Options config <> ∅ ->
  run (NextBackend None) this
  = (Panic "assignment to entry in nil map",
     MkState this [EvLock; EvUnlock]).
Proof.
  intros Hobject Hconfig Hstatic. unfold run.
  apply (NextBackend_panic this None [] object); [exact Hobject|].
  unfold merged_options. rewrite Hconfig.
  apply merge_options_nil. exact Hstatic.
Qed.

Lemma rebuild_events_no_mutex (isBackup : bool) (this : ServerConfig) :
  Forall (fun e => mutex_event e = false) (rebuild_events isBackup this).
Proof.
  unfold rebuild_events. constructor; [reflexivity|].
  apply Forall_app. split; [|repeat constructor].
  induction (pool_of isBackup this); constructor; [reflexivity|assumption].
Qed.

(** The mutex in [NextBackend]: whatever the path, the log is one [Lock],
    a body without mutex operation (the calls of [Next] and the rebuild
    for the backup tier), and one [Unlock]. *)
Lemma NextBackend_holds_mutex (this : ServerConfig) (options : maps_Map Value) :
  exists r st body,
    run (NextBackend options) this = (r, st)
    /\ log st = EvLock :: body ++ [EvUnlock]
    /\ Forall (fun e => mutex_event e = false) body.
Proof.
  unfold run.
  destruct (schedulingObject this) as [object|] eqn:Hobject.
  2:{ rewrite NextBackend_no_object by assumption.
      do 2 eexists. exists []. repeat split. constructor. }
  destruct (merged_options this options) as [merged|msg] eqn:Hmerged.
  2:{ erewrite NextBackend_panic by eassumption.
      do 2 eexists. exists []. repeat split. constructor. }
  destruct (Next object merged) as [[backend|] object'] eqn:HNext.
  { erewrite NextBackend_candidate by eassumption.
    do 2 eexists. exists [EvNext merged]. repeat split. repeat constructor. }
  destruct (schedulingIsBackup this) eqn:Hbackup.
  { erewrite NextBackend_backup_exhausted by eassumption.
    do 2 eexists. exists [EvNext merged]. repeat split. repeat constructor. }
  erewrite NextBackend_failover by eassumption.
  do 2 eexists. exists (EvNext merged :: rebuild_events true this ++ [EvNext merged]).
  split; [reflexivity|]. split.
  - cbn [log app]. rewrite <- app_assoc. reflexivity.
  - constructor; [reflexivity|]. apply Forall_app.
    split; [apply rebuild_events_no_mutex|repeat constructor].
Qed.

(** The mutex in [SetupScheduling]: taken for the primary tier only; for
    the backup tier the log has no mutex operation. *)
Lemma SetupScheduling_mutex (isBackup : bool) (this : ServerConfig) :
  log (snd (run (SetupScheduling isBackup) this))
  = if isBackup then rebuild_events true this
    else EvLock :: rebuild_events false this ++ [EvUnlock].
Proof.
  unfold run. rewrite SetupScheduling_spec.
  destruct isBackup; cbn [snd log app]; [apply app_nil_r|reflexivity].
Qed.

(** C1 (amended): for every caller-supplied options map that exists and every
    server that has a scheduling object and whose Scheduling config is
    non-nil, NextBackend writes the server's static scheduling options
    over the caller-supplied ones: the map passed to every call of the
    algorithm's Next holds, for any key of the static options (also one
    the caller supplied), the static value, and the caller's value for
    the other keys. *)
Theorem NextBackend_static_options_override (this : ServerConfig)
    (entries : gmap string Value) (config : SchedulingConfig.t Value)
    (object : SchedulingInterface) :
  schedulingObject this = Some object ->
  Scheduling this = Some config ->
  exists (passed : gmap string Value) candidate st,
    run (NextBackend (Some entries)) this = (Ok (candidate, Some passed), st)
    /\ hd_error (Next_arguments (log st)) = Some (Some passed)
    /\ Forall (eq (Some passed)) (Next_arguments (log st))
    /\ (forall k v,
          SchedulingConfig.Options config !! k = Some v ->
          passed !! k = Some v)
    /\ (forall k,
          SchedulingConfig.Options config !! k = None ->
          passed !! k = entries !! k).
Proof.
  intros Hobject Hconfig.
  pose proof (merged_options_Some this entries) as Hmerged.
  rewrite Hconfig in Hmerged.
  destruct (NextBackend_on_map this entries _ object Hobject Hmerged)
    as (candidate & st & Hrun & Hfirst & Hall & _).
  exists (SchedulingConfig.Options config ∪ entries), candidate, st.
  repeat split; try assumption.
  - intros k v Hk. apply lookup_union_Some_l. assumption.
  - intros k Hk. apply lookup_union_r. assumption.
Qed.

(** C10 (amended): when the server has a scheduling object and its
    Scheduling config is non-nil, NextBackend writes the static
    scheduling option entries into the map object the caller passed in:
    at the return the caller's map holds every static entry, and its own
    entries for the other keys; it differs from what the caller passed
    as soon as one static entry was not in it. *)
Theorem NextBackend_mutates_caller_map (this : ServerConfig)
    (entries : gmap string Value) (config : SchedulingConfig.t Value)
    (object : SchedulingInterface) :
  schedulingObject this = Some object ->
  Scheduling this = Some config ->
  exists (caller_map : gmap string Value) candidate st,
    run (NextBackend (Some entries)) this
    = (Ok (candidate, Some caller_map), st)
    /\ (forall k v,
          SchedulingConfig.Options config !! k = Some v ->
          caller_map !! k = Some v)
    /\ (forall k,
          SchedulingConfig.Options config !! k = None ->
          caller_map !! k = entries !! k)
    /\ ((exists k v,
           SchedulingConfig.Options config !! k = Some v
           /\ entries !! k <> Some v) ->
        caller_map <> entries).
Proof.
  intros Hobject Hconfig.
  pose proof (merged_options_Some this entries) as Hmerged.
  rewrite Hconfig in Hmerged.
  destruct (NextBackend_on_map this entries _ object Hobject Hmerged)
    as (candidate & st & Hrun & _).
  exists (SchedulingConfig.Options config ∪ entries), candidate, st.
  split; [assumption|]. split; [|split].
  - intros k v Hk. apply lookup_union_Some_l. assumption.
  - intros k Hk. apply lookup_union_r. assumption.
  - intros (k & v & Hk & Hne) Heq. apply Hne. rewrite <- Heq.
    apply lookup_union_Some_l. assumption.
Qed.

(** C2: if the algorithm yields no candidate and the engine is not in
    backup mode, NextBackend rebuilds the algorithm with only IsBackup
    backends (enabled and not down) and calls Next exactly once more,
    returning that candidate or nil; if the engine is already in backup
    mode and the algorithm yields nothing, NextBackend returns nil
    without rebuilding or retrying; in both cases it returns normally. *)
Theorem NextBackend_failover_once (this : ServerConfig)
    (options merged : maps_Map Value) (object object' : SchedulingInterface) :
  schedulingObject this = Some object ->
  merged_options this options = Ok merged ->
  Next object merged = (None, object') ->
  (schedulingIsBackup this = false ->
   exists st,
     run (NextBackend options) this
     = (Ok (fst (Next (rebuilt true this) merged), merged), st)
     /\ log st
        = [EvLock; EvNext merged; EvAssign]
            ++ map EvAdd (pool_of true this)
            ++ [EvStart; EvNext merged; EvUnlock]
     /\ Forall (fun backend => ServerBackendConfig.IsBackup backend = true)
          (pool_of true this)
     /\ schedulingIsBackup (receiver st) = true
     /\ schedulingObject (receiver st)
        = Some (snd (Next (rebuilt true this) merged)))
  /\ (schedulingIsBackup this = true ->
      run (NextBackend options) this
      = (Ok (None, merged),
         MkState (set_schedulingObject (Some object') this)
           [EvLock; EvNext merged; EvUnlock])).
Proof.
  intros Hobject Hmerged HNext. split; intros Hbackup; unfold run.
  - erewrite NextBackend_failover by eassumption.
    eexists. split; [reflexivity|]. cbn [log receiver app].
    split; [|split; [|split; reflexivity]].
    + unfold rebuild_events. cbn. rewrite <- app_assoc. reflexivity.
    + eapply Forall_impl; [apply pool_of_tier|]. intros backend (_ & _ & Hb).
      exact Hb.
  - erewrite NextBackend_backup_exhausted by eassumption. reflexivity.
Qed.

(** C7: for every backend list and every tier flag isBackup,
    SetupScheduling adds to the freshly selected algorithm exactly the
    backends with On true and IsDown false whose IsBackup flag equals
    the requested tier, in the order of the list, and then calls Start;
    the outcome does not depend on the scheduling object held before,
    and calling it again rebuilds the same state from the backend
    list. *)
Theorem SetupScheduling_rebuilds_tier (isBackup : bool) (this : ServerConfig) :
  exists st,
    run (SetupScheduling isBackup) this = (Ok tt, st)
    /\ schedulingObject (receiver st)
       = Some (Start (fold_left Add
                        (List.filter (in_tier isBackup) (Backends this))
                        (selected_instance (Scheduling this))))
    /\ log st
       = (if isBackup then [] else [EvLock])
           ++ EvAssign
              :: map EvAdd (List.filter (in_tier isBackup) (Backends this))
           ++ EvStart :: (if isBackup then [] else [EvUnlock])
    /\ Backends (receiver st) = Backends this
    /\ (forall previous,
          run (SetupScheduling isBackup) (set_schedulingObject previous this)
          = run (SetupScheduling isBackup) this)
    /\ run (SetupScheduling isBackup) (receiver st)
       = (Ok tt, MkState (receiver st) (log st)).
Proof.
  unfold run. eexists. split; [apply SetupScheduling_spec|].
  cbn [receiver log]. split; [reflexivity|]. split.
  { unfold rebuild_events, pool_of. destruct isBackup; cbn [app];
      rewrite <- ?app_assoc, ?app_nil_r; reflexivity. }
  split; [reflexivity|]. split.
  { intros previous. rewrite !SetupScheduling_spec.
    rewrite after_SetupScheduling_previous. reflexivity. }
  rewrite SetupScheduling_spec, after_SetupScheduling_idem.
  reflexivity.
Qed.

End SchedulingEngine.

(** ** Validation *)

Section Validation.

Context {Value : Type} `{!SchedulingPackage Value} `{!Collaborators}.

(** The checks, one by one: each returns its verdict and leaves the
    validated part in the receiver. *)
Lemma validate_SSL_spec (this : ServerConfig) (events : list (Event Value)) :
  validate_SSL (MkState this events)
  = (Ok (SSL_verdict this),
     MkState
       match SSL this with
       | None => this
       | Some ssl => set_SSL (Some (fst (SSLConfig_Validate ssl))) this
       end events).
Proof.
  unfold validate_SSL, SSL_verdict. mstep.
  destruct (SSL this) as [ssl|]; [|reflexivity].
  destruct (SSLConfig_Validate ssl). reflexivity.
Qed.

Lemma validate_Backends_spec (this : ServerConfig) (events : list (Event Value)) :
  validate_Backends (MkState this events)
  = (Ok (Backends_verdict this),
     MkState (set_Backends (validated_Backends this) this) events).
Proof.
  unfold validate_Backends, Backends_verdict, validated_Backends. mstep.
  destruct (validate_range Backend_Validate (Backends this)). reflexivity.
Qed.

Lemma validate_Locations_spec (this : ServerConfig) (events : list (Event Value)) :
  validate_Locations (MkState this events)
  = (Ok (snd (validate_range Location_Validate (Locations this))),
     MkState
       (set_Locations (fst (validate_range Location_Validate (Locations this)))
          this) events).
Proof.
  unfold validate_Locations. mstep.
  destruct (validate_range Location_Validate (Locations this)). reflexivity.
Qed.

Lemma ValidateFastcgi_spec (this : ServerConfig) (events : list (Event Value)) :
  this_ValidateFastcgi (MkState this events)
  = (Ok (snd (ValidateFastcgi (FastcgiList this))),
     MkState (set_FastcgiList (fst (ValidateFastcgi (FastcgiList this))) this)
       events).
Proof.
  unfold this_ValidateFastcgi. mstep.
  destruct (ValidateFastcgi (FastcgiList this)). reflexivity.
Qed.

Lemma ValidateRewriteRules_spec (this : ServerConfig) (events : list (Event Value)) :
  this_ValidateRewriteRules (MkState this events)
  = (Ok (snd (ValidateRewriteRules (RewriteList this))),
     MkState
       (set_RewriteList (fst (ValidateRewriteRules (RewriteList this))) this)
       events).
Proof.
  unfold this_ValidateRewriteRules. mstep.
  destruct (ValidateRewriteRules (RewriteList this)). reflexivity.
Qed.

Lemma ValidateHeaders_spec (this : ServerConfig) (events : list (Event Value)) :
  this_ValidateHeaders (MkState this events)
  = (Ok (snd (ValidateHeaders (HeaderList this))),
     MkState (set_HeaderList (fst (ValidateHeaders (HeaderList this))) this)
       events).
Proof.
  unfold this_ValidateHeaders. mstep.
  destruct (ValidateHeaders (HeaderList this)). reflexivity.
Qed.

Lemma validate_API_spec (this : ServerConfig) (events : list (Event Value)) :
  validate_API (MkState this events)
  = (Ok (API_verdict this),
     MkState
       (set_API
          (Some (fst (APIConfig_Validate (default NewAPIConfig (API this)))))
          this) events).
Proof.
  unfold validate_API, API_verdict.
  destruct (API this) as [config|] eqn:HAPI; repeat mstep; rewrite ?HAPI;
    repeat mstep; cbn [API set_API]; rewrite ?HAPI;
    cbn [default from_option id];
    match goal with |- context [APIConfig_Validate ?c] =>
      destruct (APIConfig_Validate c) end; repeat mstep; reflexivity.
Qed.

(** The cache-policy check. *)
Lemma validate_CachePolicy_spec (this : ServerConfig) (events : list (Event Value)) :
  CachePolicy this <> "" ->
  validate_CachePolicy (MkState this events)
  = match NewCachePolicyFromFile (CachePolicy this) with
    | None => (Ok None, MkState this events)
    | Some policy =>
        match CachePolicy_Validate policy with
        | (_, Some err) => (Ok (Some err), MkState this events)
        | (policy', None) =>
            (Ok None, MkState (set_cachePolicy (Some policy') this) events)
        end
    end.
Proof.
  intros Hname. unfold validate_CachePolicy. mstep.
  apply String.eqb_neq in Hname. rewrite Hname. cbn [negb].
  destruct (NewCachePolicyFromFile (CachePolicy this)) as [policy|];
    [|reflexivity].
  destruct (CachePolicy_Validate policy) as [policy' [err|]]; reflexivity.
Qed.

(** With an unrecognized code, [SetupScheduling] does what it does with
    no scheduling choice at all. *)
Lemma SetupScheduling_unrecognized (isBackup : bool) (this : ServerConfig)
    (config : SchedulingConfig.t Value) (events : list (Event Value)) :
  Scheduling this = Some config ->
  FindSchedulingType (SchedulingConfig.Code config) = None ->
  SetupScheduling isBackup (MkState this events)
  = SetupScheduling isBackup (MkState (set_Scheduling None this) events).
Proof.
  intros Hconfig Hfind. rewrite !SetupScheduling_spec.
  unfold after_SetupScheduling, rebuilt, rebuild_events, pool_of,
    set_schedulingObject, set_Scheduling, set_schedulingIsBackup.
  cbn. rewrite Hconfig. cbn. rewrite Hfind. reflexivity.
Qed.

Lemma set_cachePolicy_same (this : ServerConfig) :
  set_cachePolicy (cachePolicy this) this = this.
Proof. destruct this; reflexivity. Qed.

(** Whatever the cache-policy check finds, it returns and changes at
    most the field [cachePolicy]. *)
Lemma validate_CachePolicy_frame (this : ServerConfig)
    (events : list (Event Value)) :
  exists verdict policy,
    validate_CachePolicy (MkState this events)
    = (Ok verdict, MkState (set_cachePolicy policy this) events).
Proof.
  unfold validate_CachePolicy. mstep.
  destruct (negb (CachePolicy this =? "")%string).
  2:{ exists None, (cachePolicy this). rewrite set_cachePolicy_same. reflexivity. }
  destruct (NewCachePolicyFromFile (CachePolicy this)) as [policy|].
  2:{ exists None, (cachePolicy this). rewrite set_cachePolicy_same. reflexivity. }
  destruct (CachePolicy_Validate policy) as [policy' [err|]].
  - exists (Some err), (cachePolicy this). rewrite set_cachePolicy_same.
    reflexivity.
  - exists None, (Some policy'). reflexivity.
Qed.

(** What follows the scheduling setup in [Validate]: it returns, and
    touches neither the scheduling fields nor the log. *)
Lemma Validate_after_scheduling (this : ServerConfig)
    (events : list (Event Value)) :
  exists verdict st,
    (check! validate_Locations in
     check! this_ValidateFastcgi in
     check! this_ValidateRewriteRules in
     check! this_ValidateHeaders in
     check! validate_CachePolicy in
     check! validate_API in
     ret None) (MkState this events)
    = (Ok verdict, st)
    /\ engine (receiver st) = engine this
    /\ log st = events.
Proof.
  vstep validate_Locations_spec.
  destruct (snd (validate_range _ _)) as [e|].
  { do 2 eexists. split; [reflexivity|]. split; reflexivity. }
  vstep ValidateFastcgi_spec.
  destruct (snd (ValidateFastcgi _)) as [e|].
  { do 2 eexists. split; [reflexivity|]. split; reflexivity. }
  vstep ValidateRewriteRules_spec.
  destruct (snd (ValidateRewriteRules _)) as [e|].
  { do 2 eexists. split; [reflexivity|]. split; reflexivity. }
  vstep ValidateHeaders_spec.
  destruct (snd (ValidateHeaders _)) as [e|].
  { do 2 eexists. split; [reflexivity|]. split; reflexivity. }
  match goal with
  | |- context [bind validate_CachePolicy _ (MkState ?s ?ev)] =>
      destruct (validate_CachePolicy_frame s ev) as (verdict & policy & Hcache)
  end.
  erewrite bind_Ok by exact Hcache. cbv beta.
  destruct verdict as [e|].
  { do 2 eexists. split; [reflexivity|]. split; reflexivity. }
  vstep validate_API_spec.
  destruct (API_verdict _) as [e|];
    do 2 eexists; (split; [reflexivity|]); split; reflexivity.
Qed.

(** C6: for every server whose Scheduling.Code is not a recognized
    registry code, SetupScheduling returns normally, clears the stored
    Scheduling field and installs the default algorithm, rebuilt from the
    backends of the tier; Validate returns normally with the verdict it
    has when no scheduling is configured, and once the SSL and backend
    checks pass, it leaves Scheduling nil and the default algorithm as
    the active one. *)
Theorem unrecognized_code_downgrades (this : ServerConfig)
    (config : SchedulingConfig.t Value) :
  Scheduling this = Some config ->
  FindSchedulingType (SchedulingConfig.Code config) = None ->
  (forall isBackup,
     exists st,
       run (SetupScheduling isBackup) this = (Ok tt, st)
       /\ Scheduling (receiver st) = None
       /\ schedulingObject (receiver st)
          = Some (Start (fold_left Add
                           (List.filter (in_tier isBackup) (Backends this))
                           RandomScheduling)))
  /\ (exists verdict st,
        run Validate this = (Ok verdict, st)
        /\ fst (run Validate (set_Scheduling None this)) = Ok verdict
        /\ (SSL_verdict this = None ->
            Backends_verdict this = None ->
            Scheduling (receiver st) = None
            /\ schedulingObject (receiver st)
               = Some (Start (fold_left Add
                                (List.filter (in_tier false)
                                   (validated_Backends this))
                                RandomScheduling)))).
Proof.
  intros Hconfig Hfind. split.
  { intros isBackup. unfold run. rewrite SetupScheduling_spec.
    eexists. split; [reflexivity|]. cbn [receiver].
    unfold after_SetupScheduling, rebuilt, pool_of. cbn.
    rewrite Hconfig. cbn. rewrite Hfind. split; reflexivity. }
  assert (match SSL this with
          | Some ssl => set_SSL (Some (fst (SSLConfig_Validate ssl))) this
          | None => this
          end
          = set_SSL (match SSL this with
                     | Some ssl => Some (fst (SSLConfig_Validate ssl))
                     | None => None
                     end) this) as HSSL.
  { destruct this as [? ? ? ? ? ? ? ? ? ? ? [ssl|]]; reflexivity. }
  unfold run, Validate.
  vstep validate_SSL_spec. vstep validate_SSL_spec.
  change (SSL_verdict (set_Scheduling None this)) with (SSL_verdict this).
  change (SSL (set_Scheduling None this)) with (SSL this).
  destruct (SSL_verdict this) as [e|].
  { do 2 eexists. split; [reflexivity|]. split; [reflexivity|discriminate]. }
  assert (match SSL this with
          | Some ssl =>
              set_SSL (Some (fst (SSLConfig_Validate ssl)))
                (set_Scheduling None this)
          | None => set_Scheduling None this
          end
          = set_Scheduling None
              (set_SSL (match SSL this with
                        | Some ssl => Some (fst (SSLConfig_Validate ssl))
                        | None => None
                        end) this)) as HSSL'.
  { destruct this as [? ? ? ? ? ? ? ? ? ? ? [ssl|]]; reflexivity. }
  rewrite HSSL, HSSL'. clear HSSL HSSL'.
  set (ssl' := match SSL this with
               | Some ssl => Some (fst (SSLConfig_Validate ssl))
               | None => None
               end).
  vstep validate_Backends_spec. vstep validate_Backends_spec.
  change (Backends_verdict (set_Scheduling None (set_SSL ssl' this)))
    with (Backends_verdict this).
  change (Backends_verdict (set_SSL ssl' this)) with (Backends_verdict this).
  change (validated_Backends (set_Scheduling None (set_SSL ssl' this)))
    with (validated_Backends this).
  change (validated_Backends (set_SSL ssl' this)) with (validated_Backends this).
  destruct (Backends_verdict this) as [e|].
  { do 2 eexists. split; [reflexivity|]. split; [reflexivity|discriminate]. }
  set (this1 := set_Backends (validated_Backends this) (set_SSL ssl' this)).
  change (set_Backends (validated_Backends this)
            (set_Scheduling None (set_SSL ssl' this)))
    with (set_Scheduling None this1).
  rewrite (bind_same (SetupScheduling false) _ _ _
             (SetupScheduling_unrecognized false this1 config [] Hconfig Hfind)).
  vstep SetupScheduling_spec.
  match goal with
  | |- context [bind validate_Locations _ (MkState ?s ?ev)] =>
      destruct (Validate_after_scheduling s ev)
        as (verdict & st & Hrun & Hengine & _)
  end.
  rewrite Hrun. exists verdict, st.
  split; [reflexivity|]. split; [reflexivity|]. intros _ _.
  injection Hengine as HScheduling Hobject.
  rewrite HScheduling, Hobject. split; reflexivity.
Qed.

(** C5 (amended): if a non-empty CachePolicy name is set on the server
    and the checks that come before pass, Validate resolves the named
    cache policy; when the resolved policy's own validation fails it
    aborts with that error and leaves cachePolicy as it was; when the
    policy cannot be resolved it raises no error for that: it leaves
    cachePolicy as it was and goes on to the API check, whose verdict it
    returns; only when the policy is resolved and valid is the derived
    cachePolicy assigned. *)
Theorem Validate_cache_policy (this : ServerConfig) :
  CachePolicy this <> "" ->
  earlier_checks_pass this ->
  exists verdict st,
    run Validate this = (Ok verdict, st)
    /\ match NewCachePolicyFromFile (CachePolicy this) with
       | None =>
           verdict = API_verdict this
           /\ cachePolicy (receiver st) = cachePolicy this
       | Some policy =>
           match CachePolicy_Validate policy with
           | (_, Some err) =>
               verdict = Some err
               /\ cachePolicy (receiver st) = cachePolicy this
           | (policy', None) =>
               verdict = API_verdict this
               /\ cachePolicy (receiver st) = Some policy'
           end
       end.
Proof.
  intros Hname (HSSL & HBackends & HLocations & HFastcgi & HRewrite & HHeaders).
  unfold run, Validate.
  vstep validate_SSL_spec. rewrite HSSL.
  vstep validate_Backends_spec.
  match goal with
  | |- context [Backends_verdict ?s] =>
      replace (Backends_verdict s) with (Backends_verdict this)
        by (unfold Backends_verdict; destruct (SSL this); reflexivity)
  end.
  rewrite HBackends.
  vstep SetupScheduling_spec.
  vstep validate_Locations_spec.
  match goal with
  | |- context [validate_range Location_Validate (Locations ?s)] =>
      replace (Locations s) with (Locations this)
        by (destruct (SSL this); reflexivity)
  end.
  rewrite HLocations.
  vstep ValidateFastcgi_spec.
  match goal with
  | |- context [ValidateFastcgi (FastcgiList ?s)] =>
      replace (FastcgiList s) with (FastcgiList this)
        by (destruct (SSL this); reflexivity)
  end.
  rewrite HFastcgi.
  vstep ValidateRewriteRules_spec.
  match goal with
  | |- context [ValidateRewriteRules (RewriteList ?s)] =>
      replace (RewriteList s) with (RewriteList this)
        by (destruct (SSL this); reflexivity)
  end.
  rewrite HRewrite.
  vstep ValidateHeaders_spec.
  match goal with
  | |- context [ValidateHeaders (HeaderList ?s)] =>
      replace (HeaderList s) with (HeaderList this)
        by (destruct (SSL this); reflexivity)
  end.
  rewrite HHeaders.
  match goal with
  | |- context [bind validate_CachePolicy _ (MkState ?s _)] =>
      assert (CachePolicy s = CachePolicy this
              /\ cachePolicy s = cachePolicy this
              /\ API_verdict s = API_verdict this) as (Hn & Hc & Ha)
        by (unfold API_verdict; destruct (SSL this); repeat split; reflexivity);
      generalize dependent s
  end.
  intros this1 Hn Hc Ha. unfold bind at 1.
  rewrite validate_CachePolicy_spec by (rewrite Hn; exact Hname).
  rewrite Hn.
  destruct (NewCachePolicyFromFile (CachePolicy this)) as [policy|].
  2:{ vstep validate_API_spec. rewrite Ha.
      destruct (API_verdict this); do 2 eexists;
        (split; [reflexivity|]); split; (reflexivity || exact Hc). }
  destruct (CachePolicy_Validate policy) as [policy' [err|]].
  { do 2 eexists. split; [reflexivity|]. split; [reflexivity|exact Hc]. }
  vstep validate_API_spec.
  change (API_verdict (set_cachePolicy (Some policy') this1))
    with (API_verdict this1).
  rewrite Ha.
  destruct (API_verdict this); do 2 eexists;
    (split; [reflexivity|]); split; reflexivity.
Qed.

End Validation.

(** ** The scoped resolver *)

Section Resolver.

Context {Value : Type} `{!SchedulingPackage Value} `{!Collaborators}.

Lemma FindLocation_spec (this : ServerConfig) (locationId : string)
    (events : list (Event Value)) :
  FindLocation locationId (MkState this events)
  = (Ok (located this locationId),
     MkState
       (set_Locations (snd (find_location (Locations this) locationId)) this)
       events).
Proof.
  unfold FindLocation, located. mstep.
  destruct (find_location (Locations this) locationId). reflexivity.
Qed.

(** [FindLocation] finds nothing exactly when no location has the id. *)
Lemma find_location_None (locations : list LocationConfig) (locationId : string) :
  fst (find_location locations locationId) = None
  <-> Forall (fun location => Location_Id location <> locationId) locations.
Proof.
  induction locations as [|location rest IH]; simpl.
  - split; [constructor|reflexivity].
  - destruct (String.eqb_spec (Location_Id location) locationId) as [Heq|Hne];
      simpl.
    + split; [discriminate|]. intros HF. inversion HF; subst. contradiction.
    + destruct (find_location rest locationId) as [found rest']. simpl in *.
      rewrite IH. split.
      * intros HF. constructor; assumption.
      * intros HF. inversion HF; subst. assumption.
Qed.

Ltac resolve_ids :=
  repeat match goal with
         | |- context [String.eqb ?id ""] =>
             destruct (String.eqb_spec id "") as [->|?]
         end;
  cbn [negb].

Ltac resolve_branch :=
  unfold decided_branch;
  repeat first [ rewrite decide_True by assumption
               | rewrite decide_False by (intros Hx; apply Hx; reflexivity) ].

(** C8: the first non-empty identifier in the order rewriteId,
    fastcgiId, backendId, locationId decides the branch of
    FindHeaderList (the server itself when all are empty): the answer is
    an object of that scope or a "not found" error; when locationId and
    backendId are the non-empty ones and both objects exist, the
    backend-scoped list is returned; and whenever locationId is
    non-empty and no location has that id, the result is the "location
    not found" error, whatever the other identifiers. *)
Theorem FindHeaderList_priority (this : ServerConfig)
    (locationId backendId rewriteId fastcgiId : string) :
  exists result st,
    run (FindHeaderList locationId backendId rewriteId fastcgiId) this
    = (Ok result, st)
    /\ answer_of (decided_branch locationId backendId rewriteId fastcgiId)
         locationId result
    /\ (locationId <> "" ->
        Forall (fun location => Location_Id location <> locationId)
          (Locations this) ->
        result = (None, Some err_location))
    /\ (locationId <> "" -> backendId <> "" ->
        rewriteId = "" -> fastcgiId = "" ->
        forall location backend,
          located this locationId = Some location ->
          Location_FindBackend location backendId = Some backend ->
          result = (Some (OfServerBackendConfig backend), None))
    /\ (locationId = "" -> backendId = "" ->
        rewriteId = "" -> fastcgiId = "" ->
        result = (Some OfServerConfig, None)).
Proof.
  unfold run, FindHeaderList. resolve_ids.
  all: try vstep FindLocation_spec; try mstep.
  all: try (destruct (located this locationId) as [location|] eqn:Hlocated).
  all: repeat match goal with
              | |- context [match ?finder with Some _ => _ | None => _ end _] =>
                  destruct finder eqn:?
              end.
  all: unfold found, not_found, ret; do 2 eexists; (split; [reflexivity|]).
  all: split;
    [ resolve_branch;
      solve [ left; repeat split; (assumption || discriminate || reflexivity)
            | right;
              first [ reflexivity | left; reflexivity
                    | right; eexists; reflexivity | eexists; reflexivity ] ]
    | ].
  all: split;
    [ intros Hl Hnone; try (exfalso; apply Hl; reflexivity);
      try reflexivity;
      apply find_location_None in Hnone; unfold located in Hlocated;
      congruence
    | ].
  all: split;
    [ intros Hl Hb Hr Hf location' backend' Hloc Hback;
      try (exfalso; first [ apply Hl; reflexivity | apply Hb; reflexivity
                          | contradiction ]);
      congruence
    | intros Hl Hb Hr Hf; try contradiction; reflexivity ].
Qed.

End Resolver.

(** * The properties on the sample configuration *)

Import Sample.

(** C1, as stated, fails: the caller supplies ["key" := 0], the static
    options hold ["key" := 1]; the algorithm's Next is given ["key" := 1]
    (and so picks the second candidate, B5, not B1). *)
Lemma caller_options_do_not_win :
  schedulingObject ready <> None
  /\ Scheduling ready = Some keyed
  /\ SchedulingConfig.Options keyed !! "key" = Some 1
  /\ ({["key" := 0]} : gmap string nat) !! "key" = Some 0
  /\ Next_arguments
       (log (snd (run (NextBackend (Some {["key" := 0]})) ready)))
     = [Some {["key" := 1]}]
  /\ fst (run (NextBackend (Some {["key" := 0]})) ready)
     = Ok (Some B5, Some {["key" := 1]}).
Proof. repeat split; try discriminate; vm_compute; reflexivity. Qed.

(** On the same call, the static value is the one in the map passed on. *)
Lemma NextBackend_static_options_override_sample :
  exists (passed : gmap string nat) candidate st,
    run (NextBackend (Some {["key" := 0]})) ready
    = (Ok (candidate, Some passed), st)
    /\ hd_error (Next_arguments (log st)) = Some (Some passed)
    /\ Forall (eq (Some passed)) (Next_arguments (log st))
    /\ (forall k v,
          SchedulingConfig.Options keyed !! k = Some v -> passed !! k = Some v)
    /\ (forall k,
          SchedulingConfig.Options keyed !! k = None ->
          passed !! k = ({["key" := 0]} : gmap string nat) !! k).
Proof.
  eapply (NextBackend_static_options_override ready {["key" := 0]} keyed);
    vm_compute; reflexivity.
Defined.

(** C2 on a server whose primary tier cannot serve: one rebuild with the
    backup B3, one more call of Next, which returns B3. *)
Lemma NextBackend_failover_once_sample :
  schedulingIsBackup primary_down = false
  /\ exists st,
       run (NextBackend (Some (∅ : gmap string nat))) primary_down
       = (Ok (Some B3, Some ∅), st)
       /\ log st
          = [EvLock; EvNext (Some ∅); EvAssign; EvAdd B3; EvStart;
             EvNext (Some ∅); EvUnlock]
       /\ schedulingIsBackup (receiver st) = true.
Proof.
  split; [reflexivity|].
  edestruct (NextBackend_failover_once primary_down
               (Some (∅ : gmap string nat)) (Some ∅)) as [Hfail _];
    [vm_compute; reflexivity..|].
  destruct (Hfail eq_refl) as (st & Hrun & Hlog & _ & Hbackup & _).
  exists st. rewrite Hrun, Hlog. repeat split; try assumption.
Defined.

(** C4, as stated, fails: the name is configured verbatim, but a
    wildcard pattern that matches it comes first, and matchedPattern is
    the empty string. *)
Lemma verbatim_name_after_wildcard :
  "www.a.com" <> ""
  /\ In "www.a.com" (Name balanced)
  /\ MatchName balanced "www.a.com" = ("", true)
  /\ MatchName balanced "www.a.com" <> ("www.a.com", true).
Proof.
  repeat split; try discriminate; try reflexivity. simpl. auto.
Qed.

(** With the verbatim name first, it is the pattern returned. *)
Lemma MatchName_verbatim_sample :
  MatchName (server ["www.a.com"; "*.a.com"] [] None "") "www.a.com"
  = ("www.a.com", true).
Proof.
  refine (proj2 (proj2 (MatchName_verbatim
                          (server ["www.a.com"; "*.a.com"] [] None "")
                          "www.a.com" _ _)) [] ["*.a.com"] eq_refl _).
  - discriminate.
  - simpl. auto.
  - intros pattern [].
Defined.

(** C9, as stated, fails: an empty pattern has one empty segment, which
    matches any single segment, but MatchName skips empty patterns; and
    the empty name has one segment, which ["*"] matches, but MatchName
    never matches the empty name. *)
Lemma segmentwise_match_not_matched :
  (~ In "x" (Name (server [""] [] None ""))
   /\ In "" (Name (server [""] [] None ""))
   /\ matches_segmentwise "x" ""
   /\ MatchName (server [""] [] None "") "x" = ("", false))
  /\ (~ In "" (Name (server ["*"] [] None ""))
      /\ In "*" (Name (server ["*"] [] None ""))
      /\ matches_segmentwise "" "*"
      /\ MatchName (server ["*"] [] None "") "" = ("", false)).
Proof.
  split.
  - split; [simpl; intros [Hx|[]]; discriminate|].
    split; [simpl; auto|]. split; [|reflexivity].
    constructor; [right; right; reflexivity|constructor].
  - split; [simpl; intros [Hx|[]]; discriminate|].
    split; [simpl; auto|]. split; [|reflexivity].
    constructor; [right; left; reflexivity|constructor].
Qed.

(** The wildcard match of a name that is not listed. *)
Lemma MatchName_wildcard_sample :
  MatchName (server ["*.a.com"] [] None "") "www.a.com" = ("", true).
Proof.
  apply MatchName_wildcard.
  - discriminate.
  - simpl. intros [Hx|[]]. discriminate.
  - exists "*.a.com". split; [simpl; auto|]. split; [discriminate|].
    constructor; [right; left; reflexivity|].
    constructor; [left; reflexivity|].
    constructor; [left; reflexivity|]. constructor.
Defined.

(** C5, as stated, fails: the named policy cannot be resolved, and
    Validate returns no error. *)
Lemma unresolved_policy_is_no_error :
  CachePolicy (with_policy "missing.policy") <> ""
  /\ NewCachePolicyFromFile (CachePolicy (with_policy "missing.policy")) = None
  /\ fst (run Validate (with_policy "missing.policy")) = Ok None
  /\ cachePolicy (receiver (snd (run Validate (with_policy "missing.policy"))))
     = None.
Proof. repeat split; try discriminate; vm_compute; reflexivity. Qed.

(** A policy that is resolved and valid is assigned; one that is resolved
    and invalid aborts the validation with its error. *)
Lemma Validate_cache_policy_sample :
  (exists st,
     run Validate (with_policy "good.policy") = (Ok None, st)
     /\ cachePolicy (receiver st) = Some true)
  /\ (exists st,
        run Validate (with_policy "bad.policy")
        = (Ok (Some "invalid cache policy"), st)
        /\ cachePolicy (receiver st) = None).
Proof.
  split.
  - destruct (Validate_cache_policy (with_policy "good.policy"))
      as (verdict & st & Hrun & Hverdict & Hpolicy).
    + discriminate.
    + repeat split; reflexivity.
    + exists st. rewrite Hrun, Hverdict. split; [reflexivity|exact Hpolicy].
  - destruct (Validate_cache_policy (with_policy "bad.policy"))
      as (verdict & st & Hrun & Hverdict & Hpolicy).
    + discriminate.
    + repeat split; reflexivity.
    + exists st. rewrite Hrun, Hverdict. split; [reflexivity|exact Hpolicy].
Defined.

(** The server whose scheduling code is ["does-not-exist"]. *)
Lemma unrecognized_code_downgrades_sample :
  (forall isBackup,
     exists st,
       run (SetupScheduling isBackup) downgraded = (Ok tt, st)
       /\ Scheduling (receiver st) = None
       /\ schedulingObject (receiver st)
          = Some (Start (fold_left Add
                           (List.filter (in_tier isBackup) [B1; B3])
                           RandomScheduling)))
  /\ (exists verdict st,
        run Validate downgraded = (Ok verdict, st)
        /\ fst (run Validate (set_Scheduling None downgraded)) = Ok verdict
        /\ (SSL_verdict downgraded = None ->
            Backends_verdict downgraded = None ->
            Scheduling (receiver st) = None
            /\ schedulingObject (receiver st)
               = Some (Start (fold_left Add
                                (List.filter (in_tier false)
                                   (validated_Backends downgraded))
                                RandomScheduling)))).
Proof.
  exact (unrecognized_code_downgrades downgraded unknown eq_refl eq_refl).
Defined.

(** C10, as stated, fails: on a server whose scheduling object was never
    set up, NextBackend returns before it writes anything; the static
    option is not in the caller's map. *)
Lemma caller_map_untouched_without_object :
  Scheduling balanced = Some keyed
  /\ SchedulingConfig.Options keyed !! "key" = Some 1
  /\ fst (run (NextBackend (Some (∅ : gmap string nat))) balanced)
     = Ok (None, Some ∅)
  /\ (∅ : gmap string nat) !! "key" = None.
Proof. repeat split; vm_compute; reflexivity. Qed.

(** On the server that was set up, the static option is written into the
    empty map the caller passes. *)
Lemma NextBackend_mutates_caller_map_sample :
  exists (caller_map : gmap string nat) candidate st,
    run (NextBackend (Some (∅ : gmap string nat))) ready
    = (Ok (candidate, Some caller_map), st)
    /\ caller_map !! "key" = Some 1
    /\ caller_map <> ∅.
Proof.
  edestruct (NextBackend_mutates_caller_map ready (∅ : gmap string nat) keyed)
    as (caller_map & candidate & st & Hrun & Hstatic & _ & Hchanged);
    [vm_compute; reflexivity..|].
  exists caller_map, candidate, st. split; [exact Hrun|]. split.
  - apply Hstatic. reflexivity.
  - apply Hchanged. exists "key", 1. split; [reflexivity|discriminate].
Defined.

(** C8 on the sample: location L1 holds backend B3; with both ids given
    the backend-scoped list is returned; a location that does not exist
    gives the "location not found" error. *)
Lemma FindHeaderList_priority_sample :
  fst (run (FindHeaderList "L1" "B3" "" "") balanced)
  = Ok (Some (OfServerBackendConfig B3), None)
  /\ fst (run (FindHeaderList "L9" "B3" "R1" "") balanced)
     = Ok (None, Some err_location).
Proof.
  split.
  - destruct (FindHeaderList_priority balanced "L1" "B3" "" "")
      as (result & st & Hrun & _ & _ & Hbackend & _).
    rewrite Hrun. simpl. f_equal.
    eapply Hbackend; try discriminate; reflexivity.
  - destruct (FindHeaderList_priority balanced "L9" "B3" "R1" "")
      as (result & st & Hrun & _ & Hmissing & _).
    rewrite Hrun. simpl. f_equal. apply Hmissing; [discriminate|].
    repeat constructor; discriminate.
Defined.

(** * Further properties *)

(** ** The domain matcher, continued *)

Section MatchNameMore.

Context {Value : Type} `{!SchedulingPackage Value} `{!Collaborators}.

(** The three results the loop can give. *)
Lemma match_names_result (name : string) (pieces1 names : list string) :
  match_names name pieces1 names = ("", false)
  \/ match_names name pieces1 names = ("", true)
  \/ (match_names name pieces1 names = (name, true) /\ In name names).
Proof.
  induction names as [|q names IH]; simpl; [left; reflexivity|].
  assert (match_names name pieces1 names = ("", false)
          \/ match_names name pieces1 names = ("", true)
          \/ match_names name pieces1 names = (name, true)
             /\ (q = name \/ In name names)) as IH'.
  { destruct IH as [?|[?|[? ?]]]; auto. }
  destruct (String.eqb_spec q "") as [|_]; [exact IH'|].
  destruct (String.eqb_spec name q) as [->|_]; [right; right; auto|].
  destruct (negb _); [exact IH'|].
  destruct (match_pieces _ _ _); [right; left; reflexivity|exact IH'].
Qed.

(** A match comes from a pattern: a non-empty one that matches the name
    segment-wise. *)
Lemma match_names_sound (name : string) (names : list string) :
  snd (match_names name (strings_Split name ".") names) = true ->
  exists p, In p names /\ p <> "" /\ matches_segmentwise name p.
Proof.
  induction names as [|q names IH]; simpl; [discriminate|].
  destruct (String.eqb_spec q "") as [|Hq].
  { intros Hm. destruct (IH Hm) as (p & ? & ? & ?). eauto. }
  destruct (String.eqb_spec name q) as [->|_].
  { intros _. exists q. auto using matches_segmentwise_refl. }
  destruct (Nat.eqb_spec (length (strings_Split name "."))
              (length (strings_Split q "."))) as [Hlen|_]; simpl.
  2:{ intros Hm. destruct (IH Hm) as (p & ? & ? & ?). eauto. }
  destruct (match_pieces _ 0 _) eqn:Hpieces.
  - intros _. exists q. split; [auto|]. split; [exact Hq|].
    apply match_pieces_segmentwise; assumption.
  - intros Hm. destruct (IH Hm) as (p & ? & ? & ?). eauto.
Qed.

Lemma match_names_matched_iff (name : string) (names : list string) :
  name <> "" ->
  snd (match_names name (strings_Split name ".") names) = true
  <-> exists pattern,
        In pattern names /\ pattern <> ""
        /\ matches_segmentwise name pattern.
Proof.
  intros Hne. split.
  - apply match_names_sound.
  - intros Hsome. apply match_names_matched; assumption.
Qed.

(** X1: MatchName reports a match exactly when the name is not empty and
    some non-empty configured pattern matches it segment-wise (an equal
    pattern does). *)
Theorem MatchName_matched_iff (this : ServerConfig) (name : string) :
  snd (MatchName this name) = true
  <-> name <> ""
      /\ exists pattern,
           In pattern (Name this) /\ pattern <> ""
           /\ matches_segmentwise name pattern.
Proof.
  unfold MatchName. destruct (String.eqb_spec name "") as [->|Hne]; simpl.
  - split; [discriminate|]. intros [Hne _]. contradiction.
  - rewrite match_names_matched_iff by exact Hne. split; [auto|].
    intros [_ Hsome]. exact Hsome.
Qed.

(** X2: a name is not matched when no configured pattern has as many
    dot-separated segments as it has: a wildcard stands for one segment
    only. *)
Theorem MatchName_segment_count (this : ServerConfig) (name : string) :
  Forall (fun pattern =>
            length (strings_Split pattern ".")
            <> length (strings_Split name "."))
    (Name this) ->
  MatchName this name = ("", false).
Proof.
  intros Hcount. unfold MatchName.
  destruct (String.eqb_spec name "") as [|Hne]; [reflexivity|].
  destruct (match_names_result name (strings_Split name ".") (Name this))
    as [Hr|[Hr|[Hr _]]]; [exact Hr| |];
    exfalso;
    (destruct (match_names_sound name (Name this)) as (p & Hin & _ & Hseg);
     [rewrite Hr; reflexivity|]);
    rewrite List.Forall_forall in Hcount;
    apply (Hcount p Hin); symmetry; exact (Forall2_length _ _ _ Hseg).
Qed.

(** X3: a non-empty matchedPattern is the input name itself, which is
    then one of the configured patterns, and matched is true. *)
Theorem MatchName_pattern_is_name (this : ServerConfig) (name : string) :
  fst (MatchName this name) <> "" ->
  MatchName this name = (name, true) /\ In name (Name this).
Proof.
  unfold MatchName. destruct (String.eqb_spec name "") as [|Hne]; simpl.
  { intros Hx. contradiction. }
  destruct (match_names_result name (strings_Split name ".") (Name this))
    as [Hr|[Hr|[Hr Hin]]]; rewrite Hr; simpl; intros Hx;
    try contradiction. auto.
Qed.

(** X4: whether a name is matched does not depend on the order of the
    configured patterns (only matchedPattern does). *)
Theorem MatchName_matched_permutation (this this' : ServerConfig)
    (name : string) :
  Permutation (Name this) (Name this') ->
  snd (MatchName this name) = snd (MatchName this' name).
Proof.
  intros Hperm. unfold MatchName.
  destruct (String.eqb_spec name "") as [|Hne]; [reflexivity|].
  assert (forall l l', Permutation l l' ->
            snd (match_names name (strings_Split name ".") l) = true ->
            snd (match_names name (strings_Split name ".") l') = true)
    as Hmono.
  { intros l l' Hp Hm. apply match_names_matched_iff in Hm; [|exact Hne].
    destruct Hm as (p & Hin & Hp' & Hseg).
    apply match_names_matched_iff; [exact Hne|].
    exists p. split; [|auto]. eapply Permutation_in; eassumption. }
  destruct (snd (match_names name _ (Name this'))) eqn:Hm'.
  - apply (Hmono (Name this')); [symmetry; exact Hperm|exact Hm'].
  - destruct (snd (match_names name _ (Name this))) eqn:Hm; [|reflexivity].
    rewrite <- Hm'. symmetry. apply (Hmono (Name this)); assumption.
Qed.

End MatchNameMore.

(** ** Names *)

Section Names.

Context {Value : Type} `{!SchedulingPackage Value} `{!Collaborators}.

(** The loop over the patterns stops at the first one that matches. *)
Lemma match_names_app (name : string) (pieces1 names names' : list string) :
  match_names name pieces1 (names ++ names')
  = if snd (match_names name pieces1 names)
    then match_names name pieces1 names
    else match_names name pieces1 names'.
Proof.
  induction names as [|q names IH]; simpl; [reflexivity|].
  destruct (String.eqb_spec q "") as [|_]; [exact IH|].
  destruct (String.eqb_spec name q) as [|_]; [reflexivity|].
  destruct (negb _); [exact IH|].
  destruct (match_pieces _ _ _); [reflexivity|exact IH].
Qed.

(** X5: AddName appends: a name that was matched before is matched in
    the same way after it, and a non-empty name that is added is matched
    afterwards. *)
Theorem AddName_MatchName (this : ServerConfig) (names : list string) :
  exists st,
    run (AddName names) this = (Ok tt, st)
    /\ Name (receiver st) = Name this ++ names
    /\ (forall input,
          snd (MatchName this input) = true ->
          MatchName (receiver st) input = MatchName this input)
    /\ (forall name,
          In name names -> name <> "" ->
          snd (MatchName (receiver st) name) = true).
Proof.
  eexists. split; [reflexivity|]. cbn [receiver]. split; [reflexivity|].
  split.
  - intros input. unfold MatchName. cbn [Name set_Name].
    destruct (String.eqb_spec input "") as [|_]; [reflexivity|].
    intros Hm. rewrite match_names_app, Hm. reflexivity.
  - intros name Hin Hne. unfold MatchName. cbn [Name set_Name].
    destruct (String.eqb_spec name "") as [|_]; [contradiction|].
    apply match_names_matched; [exact Hne|].
    exists name. split; [apply in_or_app; right; exact Hin|].
    split; [exact Hne|apply matches_segmentwise_refl].
Qed.

Lemma strings_ContainsByte_In (s : string) (c : ascii) :
  strings_ContainsByte s c = true <-> In c (list_ascii_of_string s).
Proof.
  induction s as [|d rest IH]; simpl; [split; [discriminate|tauto]|].
  destruct (Ascii.eqb_spec d c) as [->|Hne]; simpl.
  - split; auto.
  - rewrite IH. split; [auto|]. intros [Heq|Hin]; [contradiction|exact Hin].
Qed.

(** X6: FirstName returns the first configured name without a ["*"]
    (the empty name counts as one), and the empty string when every
    configured name has a ["*"]; what it returns never has a ["*"]. *)
Theorem FirstName_first_plain (this : ServerConfig) :
  ~ has_star (FirstName this)
  /\ ((Forall has_star (Name this) /\ FirstName this = "")
      \/ exists before after,
           Name this = before ++ FirstName this :: after
           /\ Forall has_star before).
Proof.
  unfold FirstName. induction (Name this) as [|name rest [IHplain IH]]; simpl.
  - split; [intros []|]. left. split; [constructor|reflexivity].
  - destruct (strings_ContainsByte name "*") eqn:Hstar.
    + apply strings_ContainsByte_In in Hstar. split; [exact IHplain|].
      destruct IH as [[Hall Hempty]|(before & after & Heq & Hall)].
      * left. split; [constructor; assumption|exact Hempty].
      * right. exists (name :: before), after. split.
        -- simpl. f_equal. exact Heq.
        -- constructor; assumption.
    + split.
      * unfold has_star. rewrite <- strings_ContainsByte_In, Hstar.
        discriminate.
      * right. exists [], rest. split; [reflexivity|constructor].
Qed.

End Names.

(** ** Backends *)

Section Backends.

Context {Value : Type} `{!SchedulingPackage Value} `{!Collaborators}.

Lemma find_backend_None (backends : list Backend) (backendId : string) :
  find_backend backends backendId = None
  <-> Forall (fun backend => ServerBackendConfig.Id backend <> backendId)
        backends.
Proof.
  induction backends as [|backend rest IH]; simpl.
  - split; [constructor|reflexivity].
  - destruct (String.eqb_spec (ServerBackendConfig.Id backend) backendId)
      as [Heq|Hne].
    + split; [discriminate|]. intros HF. inversion HF; subst. contradiction.
    + rewrite IH. split.
      * intros HF. constructor; assumption.
      * intros HF. inversion HF; subst. assumption.
Qed.

Lemma find_backend_Some (backends : list Backend) (backendId : string)
    (found : Backend) :
  find_backend backends backendId = Some found ->
  exists before after,
    backends = before ++ found :: after
    /\ ServerBackendConfig.Id found = backendId
    /\ Forall (fun backend => ServerBackendConfig.Id backend <> backendId)
         before.
Proof.
  induction backends as [|backend rest IH]; simpl; [discriminate|].
  destruct (String.eqb_spec (ServerBackendConfig.Id backend) backendId)
    as [Heq|Hne].
  - intros [= ->]. exists [], rest. split; [reflexivity|]. split; [exact Heq|].
    constructor.
  - intros Hfound. destruct (IH Hfound) as (before & after & -> & Hid & Hall).
    exists (backend :: before), after. split; [reflexivity|].
    split; [exact Hid|]. constructor; assumption.
Qed.

Lemma find_backend_app (backends backends' : list Backend) (backendId : string) :
  find_backend (backends ++ backends') backendId
  = match find_backend backends backendId with
    | Some found => Some found
    | None => find_backend backends' backendId
    end.
Proof.
  induction backends as [|backend rest IH]; simpl; [reflexivity|].
  destruct (String.eqb (ServerBackendConfig.Id backend) backendId);
    [reflexivity|exact IH].
Qed.

Lemma find_delete_backend (backends : list Backend) (backendId other : string) :
  find_backend (delete_backend backends backendId) other
  = if String.eqb other backendId then None else find_backend backends other.
Proof.
  induction backends as [|backend rest IH]; simpl.
  - destruct (String.eqb other backendId); reflexivity.
  - destruct (String.eqb_spec (ServerBackendConfig.Id backend) backendId)
      as [Heq|Hne]; simpl.
    + rewrite IH. destruct (String.eqb_spec other backendId) as [|Hother];
        [reflexivity|].
      destruct (String.eqb_spec (ServerBackendConfig.Id backend) other);
        [congruence|reflexivity].
    + destruct (String.eqb_spec (ServerBackendConfig.Id backend) other)
        as [Heq|Hne'].
      * destruct (String.eqb_spec other backendId); [congruence|reflexivity].
      * exact IH.
Qed.

Lemma delete_backend_In (backends : list Backend) (backendId : string)
    (backend : Backend) :
  In backend (delete_backend backends backendId)
  <-> In backend backends /\ ServerBackendConfig.Id backend <> backendId.
Proof.
  induction backends as [|b rest IH]; simpl; [tauto|].
  destruct (String.eqb_spec (ServerBackendConfig.Id b) backendId) as [Heq|Hne];
    simpl; rewrite IH.
  - split; [tauto|]. intros [[->|Hin] Hid]; [contradiction|auto].
  - split; [|tauto]. intros [->|[Hin Hid]]; auto.
Qed.

Lemma delete_backend_sublist (backends : list Backend) (backendId : string) :
  sublist (delete_backend backends backendId) backends.
Proof.
  induction backends as [|b rest IH]; simpl; [constructor|].
  destruct (String.eqb (ServerBackendConfig.Id b) backendId);
    constructor; exact IH.
Qed.

Lemma delete_backend_absent (backends : list Backend) (backendId : string) :
  Forall (fun backend => ServerBackendConfig.Id backend <> backendId) backends ->
  delete_backend backends backendId = backends.
Proof.
  induction 1 as [|b rest Hne _ IH]; simpl; [reflexivity|].
  apply String.eqb_neq in Hne. rewrite Hne, IH. reflexivity.
Qed.

(** X7: FindBackend returns the first backend with the id: it returns
    nil exactly when no backend has the id, and a backend it returns has
    the id and no backend before it in the list has. *)
Theorem FindBackend_first (this : ServerConfig) (backendId : string) :
  (FindBackend this backendId = None
   <-> Forall (fun backend => ServerBackendConfig.Id backend <> backendId)
         (Backends this))
  /\ (forall found,
        FindBackend this backendId = Some found ->
        exists before after,
          Backends this = before ++ found :: after
          /\ ServerBackendConfig.Id found = backendId
          /\ Forall (fun backend =>
                       ServerBackendConfig.Id backend <> backendId) before).
Proof.
  unfold FindBackend. split; [apply find_backend_None|].
  intros found. apply find_backend_Some.
Qed.

(** X8: DeleteBackend removes every backend with the id and keeps the
    others in their order: afterwards FindBackend finds nothing under
    the id and what it found before under any other id, and nothing
    but Backends has changed in the receiver. *)
Theorem DeleteBackend_removes (this : ServerConfig) (backendId : string) :
  exists st,
    run (DeleteBackend backendId) this = (Ok tt, st)
    /\ FindBackend (receiver st) backendId = None
    /\ (forall other,
          other <> backendId ->
          FindBackend (receiver st) other = FindBackend this other)
    /\ sublist (Backends (receiver st)) (Backends this)
    /\ (forall backend,
          In backend (Backends (receiver st))
          <-> In backend (Backends this)
              /\ ServerBackendConfig.Id backend <> backendId)
    /\ receiver st = set_Backends (Backends (receiver st)) this
    /\ log st = [].
Proof.
  eexists. split; [reflexivity|]. cbn [receiver log].
  unfold FindBackend. cbn [Backends set_Backends].
  split; [rewrite find_delete_backend, String.eqb_refl; reflexivity|].
  split.
  { intros other Hother. rewrite find_delete_backend.
    apply String.eqb_neq in Hother. rewrite Hother. reflexivity. }
  split; [apply delete_backend_sublist|].
  split; [intros backend; apply delete_backend_In|].
  split; reflexivity.
Qed.

(** X9: deleting an id that no backend has leaves Backends as it is, so
    a second DeleteBackend of the same id changes nothing. *)
Theorem DeleteBackend_absent (this : ServerConfig) (backendId : string) :
  FindBackend this backendId = None ->
  Backends (receiver (snd (run (DeleteBackend backendId) this)))
  = Backends this
  /\ fst (run (DeleteBackend backendId) this) = Ok tt.
Proof.
  intros Habsent. split; [|reflexivity].
  cbn. apply delete_backend_absent, find_backend_None. exact Habsent.
Qed.

(** Deleting an id twice is deleting it once. *)
Lemma DeleteBackend_idempotent (this : ServerConfig) (backendId : string) :
  run (then_ (DeleteBackend backendId) (DeleteBackend backendId)) this
  = run (DeleteBackend backendId) this.
Proof.
  unfold run, then_, DeleteBackend. rewrite bind_modify. cbn.
  unfold modify. cbn. f_equal. f_equal.
  unfold set_Backends. cbn. f_equal.
  apply delete_backend_absent, find_backend_None.
  rewrite find_delete_backend, String.eqb_refl. reflexivity.
Qed.

(** X10: AddBackend appends, so a backend already there with the same id
    stays the one FindBackend returns: after AddBackend, FindBackend
    gives what it gave before, and the new backend only under an id that
    no backend had. *)
Theorem AddBackend_FindBackend (this : ServerConfig) (config : Backend)
    (backendId : string) :
  exists st,
    run (AddBackend config) this = (Ok tt, st)
    /\ Backends (receiver st) = Backends this ++ [config]
    /\ FindBackend (receiver st) backendId
       = match FindBackend this backendId with
         | Some found => Some found
         | None =>
             if String.eqb (ServerBackendConfig.Id config) backendId
             then Some config else None
         end.
Proof.
  eexists. split; [reflexivity|]. cbn [receiver]. split; [reflexivity|].
  unfold FindBackend. cbn [Backends set_Backends].
  rewrite find_backend_app. reflexivity.
Qed.

(** X11: adding a backend under an id that no backend has and deleting
    that id again gives back the list of backends. *)
Theorem AddBackend_DeleteBackend (this : ServerConfig) (config : Backend) :
  FindBackend this (ServerBackendConfig.Id config) = None ->
  Backends
    (receiver
       (snd (run (then_ (AddBackend config)
                    (DeleteBackend (ServerBackendConfig.Id config))) this)))
  = Backends this.
Proof.
  intros Habsent. cbn.
  assert (forall l,
            Forall (fun backend => ServerBackendConfig.Id backend
                                   <> ServerBackendConfig.Id config) l ->
            delete_backend (l ++ [config]) (ServerBackendConfig.Id config) = l)
    as Hround.
  { induction 1 as [|b rest Hne _ IH]; simpl.
    - rewrite String.eqb_refl. reflexivity.
    - apply String.eqb_neq in Hne. rewrite Hne, IH. reflexivity. }
  apply Hround, find_backend_None. exact Habsent.
Qed.

End Backends.

(** ** Locations *)

Section Locations.

Context {Value : Type} `{!SchedulingPackage Value} `{!Collaborators}.

Lemma find_location_unchanged (locations : list LocationConfig)
    (locationId : string) :
  fst (find_location locations locationId) = None ->
  snd (find_location locations locationId) = locations.
Proof.
  induction locations as [|location rest IH]; simpl; [reflexivity|].
  destruct (String.eqb (Location_Id location) locationId); [discriminate|].
  destruct (find_location rest locationId) as [found rest']. simpl in *.
  intros Hnone. rewrite (IH Hnone). reflexivity.
Qed.

Lemma find_location_found (locations : list LocationConfig)
    (locationId : string) (found : LocationConfig) :
  fst (find_location locations locationId) = Some found ->
  exists before location after,
    locations = before ++ location :: after
    /\ Forall (fun l => Location_Id l <> locationId) before
    /\ Location_Id location = locationId
    /\ found = fst (Location_Validate location)
    /\ snd (find_location locations locationId) = before ++ found :: after.
Proof.
  induction locations as [|location rest IH]; simpl; [discriminate|].
  destruct (String.eqb_spec (Location_Id location) locationId) as [Heq|Hne].
  - simpl. intros [= <-]. exists [], location, rest.
    repeat split; try reflexivity; [constructor|exact Heq].
  - destruct (find_location rest locationId) as [found' rest']. simpl in *.
    intros Hfound.
    destruct (IH Hfound) as (before & l & after & -> & Hall & Hid & Hv & ->).
    exists (location :: before), l, after.
    repeat split; try assumption; try reflexivity. constructor; assumption.
Qed.

Lemma find_location_first (before after : list LocationConfig)
    (location : LocationConfig) :
  Forall (fun l => Location_Id l <> Location_Id location) before ->
  find_location (before ++ location :: after) (Location_Id location)
  = (Some (fst (Location_Validate location)),
     before ++ fst (Location_Validate location) :: after).
Proof.
  induction 1 as [|l before Hne _ IH]; simpl.
  - rewrite String.eqb_refl. reflexivity.
  - apply String.eqb_neq in Hne. rewrite Hne, IH. reflexivity.
Qed.

Lemma find_remove_location (locations : list LocationConfig)
    (locationId other : string) :
  fst (find_location (remove_location locations locationId) other)
  = if String.eqb other locationId then None
    else fst (find_location locations other).
Proof.
  induction locations as [|location rest IH]; simpl.
  - destruct (String.eqb other locationId); reflexivity.
  - destruct (String.eqb_spec (Location_Id location) locationId)
      as [Heq|Hne]; simpl.
    + rewrite IH. destruct (String.eqb_spec other locationId) as [|Hother];
        [reflexivity|].
      destruct (String.eqb_spec (Location_Id location) other);
        [congruence|].
      destruct (find_location rest other). reflexivity.
    + destruct (String.eqb_spec (Location_Id location) other) as [Heq|Hne'].
      * destruct (String.eqb_spec other locationId); [congruence|reflexivity].
      * destruct (find_location (remove_location rest locationId) other),
          (find_location rest other). simpl in *. exact IH.
Qed.

Lemma remove_location_In (locations : list LocationConfig)
    (locationId : string) (location : LocationConfig) :
  In location (remove_location locations locationId)
  <-> In location locations /\ Location_Id location <> locationId.
Proof.
  induction locations as [|l rest IH]; simpl; [tauto|].
  destruct (String.eqb_spec (Location_Id l) locationId) as [Heq|Hne];
    simpl; rewrite IH.
  - split; [tauto|]. intros [[->|Hin] Hid]; [contradiction|auto].
  - split; [|tauto]. intros [->|[Hin Hid]]; auto.
Qed.

Lemma remove_location_sublist (locations : list LocationConfig)
    (locationId : string) :
  sublist (remove_location locations locationId) locations.
Proof.
  induction locations as [|l rest IH]; simpl; [constructor|].
  destruct (String.eqb (Location_Id l) locationId); constructor; exact IH.
Qed.

Lemma remove_location_absent (locations : list LocationConfig)
    (locationId : string) :
  Forall (fun l => Location_Id l <> locationId) locations ->
  remove_location locations locationId = locations.
Proof.
  induction 1 as [|l rest Hne _ IH]; simpl; [reflexivity|].
  apply String.eqb_neq in Hne. rewrite Hne, IH. reflexivity.
Qed.

(** X12: FindLocation returns nil exactly when no location has the id,
    and then leaves Locations as it is; otherwise it returns the first
    location with the id after validating it, and in Locations that
    location, and no other, is replaced by its validated self. *)
Theorem FindLocation_effect (this : ServerConfig) (locationId : string) :
  exists st,
    run (FindLocation locationId) this = (Ok (located this locationId), st)
    /\ log st = []
    /\ receiver st = set_Locations (Locations (receiver st)) this
    /\ (located this locationId = None
        <-> Forall (fun l => Location_Id l <> locationId) (Locations this))
    /\ (located this locationId = None ->
        Locations (receiver st) = Locations this)
    /\ (forall found,
          located this locationId = Some found ->
          exists before location after,
            Locations this = before ++ location :: after
            /\ Forall (fun l => Location_Id l <> locationId) before
            /\ Location_Id location = locationId
            /\ found = fst (Location_Validate location)
            /\ Locations (receiver st) = before ++ found :: after).
Proof.
  unfold run. rewrite FindLocation_spec. eexists. split; [reflexivity|].
  cbn [receiver log]. split; [reflexivity|]. split; [reflexivity|].
  unfold located. cbn [Locations set_Locations].
  split; [apply find_location_None|].
  split; [apply find_location_unchanged|].
  intros found. apply find_location_found.
Qed.

(** X13: RemoveLocation removes every location with the id and keeps
    the others in their order: afterwards FindLocation finds nothing
    under the id and the same location as before under another id, and
    removing the id once more changes nothing. *)
Theorem RemoveLocation_removes (this : ServerConfig) (locationId : string) :
  exists st,
    run (RemoveLocation locationId) this = (Ok tt, st)
    /\ located (receiver st) locationId = None
    /\ (forall other,
          other <> locationId ->
          located (receiver st) other = located this other)
    /\ sublist (Locations (receiver st)) (Locations this)
    /\ (forall location,
          In location (Locations (receiver st))
          <-> In location (Locations this)
              /\ Location_Id location <> locationId)
    /\ run (RemoveLocation locationId) (receiver st) = (Ok tt, st).
Proof.
  eexists. split; [reflexivity|]. cbn [receiver].
  unfold located. cbn [Locations set_Locations].
  split; [rewrite find_remove_location, String.eqb_refl; reflexivity|].
  split.
  { intros other Hother. rewrite find_remove_location.
    apply String.eqb_neq in Hother. rewrite Hother. reflexivity. }
  split; [apply remove_location_sublist|].
  split; [intros location; apply remove_location_In|].
  unfold run, RemoveLocation, modify. cbn [receiver log].
  f_equal. f_equal. unfold set_Locations. cbn. f_equal.
  apply remove_location_absent, find_location_None.
  rewrite find_remove_location, String.eqb_refl. reflexivity.
Qed.

(** X14: LocationAtIndex returns nil and changes nothing for an index
    out of the bounds (negative, or the length and beyond); for an index
    in the bounds it returns the location there after validating it in
    place; at the position of the first location with some id it does
    what FindLocation does with that id. *)
Theorem LocationAtIndex_bounds (this : ServerConfig) :
  (forall index,
     (index < 0 \/ Z.of_nat (length (Locations this)) <= index)%Z ->
     run (LocationAtIndex index) this = (Ok None, MkState this []))
  /\ (forall i location,
        Locations this !! i = Some location ->
        run (LocationAtIndex (Z.of_nat i)) this
        = (Ok (Some (fst (Location_Validate location))),
           MkState
             (set_Locations
                (<[i := fst (Location_Validate location)]> (Locations this))
                this) []))
  /\ (forall before location after,
        Locations this = before ++ location :: after ->
        Forall (fun l => Location_Id l <> Location_Id location) before ->
        run (LocationAtIndex (Z.of_nat (length before))) this
        = run (FindLocation (Location_Id location)) this).
Proof.
  assert (forall i location,
            Locations this !! i = Some location ->
            run (LocationAtIndex (Z.of_nat i)) this
            = (Ok (Some (fst (Location_Validate location))),
               MkState
                 (set_Locations
                    (<[i := fst (Location_Validate location)]> (Locations this))
                    this) [])) as Hin.
  { intros i location Hi. unfold run, LocationAtIndex.
    pose proof (lookup_lt_Some _ _ _ Hi) as Hlt.
    destruct (Z.ltb_spec (Z.of_nat i) 0) as [|_]; [lia|].
    rewrite bind_get. cbn [receiver].
    destruct (Z.geb_spec (Z.of_nat i) (Z.of_nat (length (Locations this))))
      as [|_]; [lia|].
    rewrite Nat2Z.id, Hi. reflexivity. }
  split; [|split; [exact Hin|]].
  - intros index Hout. unfold run, LocationAtIndex.
    destruct (Z.ltb_spec index 0) as [|Hpos]; [reflexivity|].
    rewrite bind_get. cbn [receiver].
    destruct (Z.geb_spec index (Z.of_nat (length (Locations this))))
      as [|Hlt]; [reflexivity|lia].
  - intros before location after Heq Hfirst.
    rewrite (Hin (length before) location).
    2:{ rewrite Heq. apply list_lookup_middle. reflexivity. }
    unfold run. rewrite FindLocation_spec. unfold located.
    rewrite Heq, find_location_first by exact Hfirst. cbn [fst snd].
    rewrite insert_app_r_alt, Nat.sub_diag by lia. reflexivity.
Qed.

(** X15: FindFastcgiList, FindRewriteList and FindHeaderList with only a
    locationId resolve the same scope and change the receiver in the
    same way: the server itself for the empty id; otherwise the "location
    not found" error when no location has the id, and else the first
    location with the id, validated. *)
Theorem Find_lists_same_scope (this : ServerConfig) (locationId : string) :
  snd (run (FindFastcgiList locationId) this)
  = snd (run (FindHeaderList locationId "" "" "") this)
  /\ snd (run (FindRewriteList locationId) this)
     = snd (run (FindHeaderList locationId "" "" "") this)
  /\ (locationId = "" ->
      run (FindFastcgiList locationId) this
      = (Ok (Some FastcgiOfServerConfig, None), MkState this [])
      /\ run (FindRewriteList locationId) this
         = (Ok (Some RewriteOfServerConfig, None), MkState this [])
      /\ run (FindHeaderList locationId "" "" "") this
         = (Ok (Some OfServerConfig, None), MkState this []))
  /\ (locationId <> "" ->
      match located this locationId with
      | None =>
          fst (run (FindFastcgiList locationId) this)
          = Ok (None, Some err_location)
          /\ fst (run (FindRewriteList locationId) this)
             = Ok (None, Some err_location)
          /\ fst (run (FindHeaderList locationId "" "" "") this)
             = Ok (None, Some err_location)
      | Some location =>
          fst (run (FindFastcgiList locationId) this)
          = Ok (Some (FastcgiOfLocationConfig location), None)
          /\ fst (run (FindRewriteList locationId) this)
             = Ok (Some (RewriteOfLocationConfig location), None)
          /\ fst (run (FindHeaderList locationId "" "" "") this)
             = Ok (Some (OfLocationConfig location), None)
      end).
Proof.
  unfold run, FindFastcgiList, FindRewriteList, FindHeaderList.
  cbn [String.eqb negb].
  destruct (String.eqb_spec locationId "") as [->|Hne]; cbn [negb].
  { repeat split; try reflexivity. intros Hx. contradiction. }
  rewrite !(bind_Ok _ _ _ _ _ (FindLocation_spec this locationId [])).
  destruct (located this locationId) as [location|];
    (split; [reflexivity|]); (split; [reflexivity|]);
    (split; [intros Hx; contradiction|]); intros _; repeat split.
Qed.

(** X16: FindHeaderList changes the receiver only through the lookup
    of the location: without a locationId it leaves the receiver as it
    is, and with one it leaves it as FindLocation does (the location
    found is validated in place), whatever the other identifiers. *)
Theorem FindHeaderList_effect (this : ServerConfig)
    (locationId backendId rewriteId fastcgiId : string) :
  snd (run (FindHeaderList locationId backendId rewriteId fastcgiId) this)
  = if String.eqb locationId "" then MkState this []
    else snd (run (FindLocation locationId) this).
Proof.
  unfold run, FindHeaderList.
  destruct (String.eqb_spec rewriteId "") as [->|?];
    destruct (String.eqb_spec fastcgiId "") as [->|?];
    destruct (String.eqb_spec backendId "") as [->|?];
    destruct (String.eqb_spec locationId "") as [->|?]; cbn [negb];
    try rewrite (bind_Ok _ _ _ _ _ (FindLocation_spec this locationId []));
    try rewrite bind_get;
    rewrite ?FindLocation_spec; cbn [snd receiver];
    repeat match goal with
           | |- context [match ?finder with Some _ => _ | None => _ end _] =>
               destruct finder
           end;
    reflexivity.
Qed.

End Locations.

(** ** The scheduling engine, continued *)

Section EngineMore.

Context {Value : Type} `{!SchedulingPackage Value} `{!Collaborators}.

(** The receiver after [NextBackend], path by path: nothing but the
    scheduling fields changes; the backup flag is never cleared; a
    rebuild happens only when the flag was not set. *)
Lemma NextBackend_receiver (this : ServerConfig) (options : maps_Map Value) :
  exists r st,
    run (NextBackend options) this = (r, st)
    /\ settings (receiver st) = settings this
    /\ (schedulingIsBackup this = true ->
        schedulingIsBackup (receiver st) = true
        /\ Scheduling (receiver st) = Scheduling this
        /\ ~ In EvAssign (log st)
        /\ length (Next_arguments (log st)) <= 1)
    /\ (schedulingIsBackup (receiver st) = false ->
        schedulingIsBackup this = false /\ ~ In EvAssign (log st))
    /\ after_SetupScheduling false (receiver st)
       = after_SetupScheduling false this.
Proof.
  unfold run.
  destruct (schedulingObject this) as [object|] eqn:Hobject.
  2:{ rewrite NextBackend_no_object by assumption.
      do 2 eexists. split; [reflexivity|]. cbn.
      repeat split; auto; intros Hx; intuition discriminate. }
  destruct (merged_options this options) as [merged|msg] eqn:Hmerged.
  2:{ erewrite NextBackend_panic by eassumption.
      do 2 eexists. split; [reflexivity|]. cbn.
      repeat split; auto; intros Hx; intuition discriminate. }
  destruct (Next object merged) as [[backend|] object'] eqn:HNext.
  { erewrite NextBackend_candidate by eassumption.
    do 2 eexists. split; [reflexivity|]. cbn.
    repeat split; auto; intros Hx; intuition discriminate. }
  destruct (schedulingIsBackup this) eqn:Hbackup.
  { erewrite NextBackend_backup_exhausted by eassumption.
    do 2 eexists. split; [reflexivity|]. cbn. rewrite Hbackup.
    repeat split; auto; intros Hx; intuition discriminate. }
  erewrite NextBackend_failover by eassumption.
  do 2 eexists. split; [reflexivity|]. cbn [receiver log].
  split; [reflexivity|]. split; [intros Hx; discriminate|].
  split; [intros Hx; discriminate|].
  rewrite after_SetupScheduling_previous.
  unfold after_SetupScheduling at 1. unfold rebuilt, pool_of.
  change (Backends (after_SetupScheduling true this)) with (Backends this).
  change (Scheduling (after_SetupScheduling true this))
    with (recognized (Scheduling this)).
  rewrite recognized_idem, selected_recognized. reflexivity.
Qed.

(** [NextBackend] once the options are merged: it returns, the caller's
    map is the merged one, and every call of [Next] is given it. *)
Lemma NextBackend_reaches_algorithm (this : ServerConfig)
    (options merged : maps_Map Value) (object : SchedulingInterface) :
  schedulingObject this = Some object ->
  merged_options this options = Ok merged ->
  exists candidate st,
    run (NextBackend options) this = (Ok (candidate, merged), st)
    /\ hd_error (Next_arguments (log st)) = Some merged
    /\ Forall (eq merged) (Next_arguments (log st)).
Proof.
  intros Hobject Hmerged. unfold run.
  destruct (Next object merged) as [[backend|] object'] eqn:HNext.
  - erewrite NextBackend_candidate by eassumption.
    do 2 eexists. split; [reflexivity|]. cbn.
    split; [reflexivity|repeat constructor].
  - destruct (schedulingIsBackup this) eqn:Hbackup.
    + erewrite NextBackend_backup_exhausted by eassumption.
      do 2 eexists. split; [reflexivity|]. cbn.
      split; [reflexivity|repeat constructor].
    + erewrite NextBackend_failover by eassumption.
      do 2 eexists. split; [reflexivity|]. cbn [log app].
      change (EvLock :: EvNext merged :: ?l)
        with ([EvLock; EvNext merged] ++ l).
      rewrite !Next_arguments_app, Next_arguments_rebuild. cbn.
      split; [reflexivity|repeat constructor].
Qed.

(** X17: on a server whose scheduling object was never set up,
    NextBackend returns nil and does nothing else: no call of the
    algorithm, no write to the caller's map, no change of the
    receiver. *)
Theorem NextBackend_not_set_up (this : ServerConfig) (options : maps_Map Value) :
  schedulingObject this = None ->
  run (NextBackend options) this
  = (Ok (None, options), MkState this [EvLock; EvUnlock]).
Proof. intros Hobject. apply (NextBackend_no_object this options []). exact Hobject. Qed.

(** X18: with a nil map from the caller, NextBackend panics as soon as
    there is a static option to write (the mutex is released, the
    receiver is as before); when there is none, the nil map is passed to
    the algorithm. *)
Theorem NextBackend_nil_options (this : ServerConfig)
    (object : SchedulingInterface) :
  schedulingObject this = Some object ->
  (forall config,
     Scheduling this = Some config ->
     SchedulingConfig.Options config <> ∅ ->
     run (NextBackend None) this
     = (Panic "assignment to entry in nil map",
        MkState this [EvLock; EvUnlock]))
  /\ ((Scheduling this = None
       \/ exists config,
            Scheduling this = Some config
            /\ SchedulingConfig.Options config = ∅) ->
      exists candidate st,
        run (NextBackend None) this = (Ok (candidate, None), st)
        /\ hd_error (Next_arguments (log st)) = Some None
        /\ Forall (eq None) (Next_arguments (log st))).
Proof.
  intros Hobject. split.
  - intros config Hconfig Hstatic.
    exact (NextBackend_nil_map this config object Hobject Hconfig Hstatic).
  - intros Hnone. apply (NextBackend_reaches_algorithm this None None object);
      [exact Hobject|].
    unfold merged_options.
    destruct Hnone as [->|(config & -> & Hempty)]; [reflexivity|].
    apply merge_options_nil. exact Hempty.
Qed.

(** X19: without a Scheduling config, NextBackend passes the caller's
    map to the algorithm as it is and leaves it as it is. *)
Theorem NextBackend_no_static_options (this : ServerConfig)
    (options : maps_Map Value) (object : SchedulingInterface) :
  schedulingObject this = Some object ->
  Scheduling this = None ->
  exists candidate st,
    run (NextBackend options) this = (Ok (candidate, options), st)
    /\ hd_error (Next_arguments (log st)) = Some options
    /\ Forall (eq options) (Next_arguments (log st)).
Proof.
  intros Hobject Hnone.
  apply (NextBackend_reaches_algorithm this options options object);
    [exact Hobject|].
  unfold merged_options. rewrite Hnone. reflexivity.
Qed.

(** X20: backup mode is kept: a NextBackend call on an engine in backup
    mode leaves it in backup mode, rebuilds nothing and calls Next at
    most once; NextBackend never takes an engine back from the backup
    tier to the primary tier. *)
Theorem NextBackend_stays_in_backup (this : ServerConfig)
    (options : maps_Map Value) :
  schedulingIsBackup this = true ->
  schedulingIsBackup (receiver (snd (run (NextBackend options) this))) = true
  /\ ~ In EvAssign (log (snd (run (NextBackend options) this)))
  /\ length (Next_arguments (log (snd (run (NextBackend options) this)))) <= 1.
Proof.
  intros Hbackup.
  destruct (NextBackend_receiver this options)
    as (r & st & Hrun & _ & Hkept & _).
  rewrite Hrun. cbn [snd]. destruct (Hkept Hbackup) as (? & _ & ? & ?). auto.
Qed.

(** X21: NextBackend changes nothing in the receiver but the scheduling
    fields: names, backends, locations, SSL, cache policy and the rest
    are as before, whatever the path. *)
Theorem NextBackend_keeps_settings (this : ServerConfig)
    (options : maps_Map Value) :
  settings (receiver (snd (run (NextBackend options) this))) = settings this.
Proof.
  destruct (NextBackend_receiver this options) as (r & st & Hrun & Hset & _).
  rewrite Hrun. exact Hset.
Qed.

(** X22: a failover leaves no trace once the primary tier is set up
    again: SetupScheduling(false) after any NextBackend call gives the
    receiver that SetupScheduling(false) gives without that call. *)
Theorem SetupScheduling_after_NextBackend (this : ServerConfig)
    (options : maps_Map Value) :
  receiver
    (snd (run (SetupScheduling false)
            (receiver (snd (run (NextBackend options) this)))))
  = receiver (snd (run (SetupScheduling false) this))
  /\ schedulingIsBackup (receiver (snd (run (SetupScheduling false) this)))
     = false.
Proof.
  destruct (NextBackend_receiver this options)
    as (r & st & Hrun & _ & _ & _ & Hsame).
  rewrite Hrun. unfold run. rewrite !SetupScheduling_spec. cbn [snd receiver].
  split; [exact Hsame|reflexivity].
Qed.

(** X23: SetupScheduling sets the backup flag to its argument and
    changes nothing but the scheduling fields; a Scheduling config with
    a recognized code is kept and its registry instance is the one that
    is filled and started; with no Scheduling config the default
    instance is. *)
Theorem SetupScheduling_selects (isBackup : bool) (this : ServerConfig) :
  exists st,
    run (SetupScheduling isBackup) this = (Ok tt, st)
    /\ schedulingIsBackup (receiver st) = isBackup
    /\ settings (receiver st) = settings this
    /\ (forall config instance,
          Scheduling this = Some config ->
          FindSchedulingType (SchedulingConfig.Code config) = Some instance ->
          Scheduling (receiver st) = Some config
          /\ schedulingObject (receiver st)
             = Some (Start (fold_left Add
                              (List.filter (in_tier isBackup) (Backends this))
                              instance)))
    /\ (Scheduling this = None ->
        Scheduling (receiver st) = None
        /\ schedulingObject (receiver st)
           = Some (Start (fold_left Add
                            (List.filter (in_tier isBackup) (Backends this))
                            RandomScheduling))).
Proof.
  unfold run. rewrite SetupScheduling_spec. eexists. split; [reflexivity|].
  cbn [receiver]. split; [reflexivity|]. split; [reflexivity|].
  unfold after_SetupScheduling, rebuilt, pool_of.
  cbn [Scheduling schedulingObject set_schedulingObject set_Scheduling].
  split.
  - intros config instance Hconfig Hfind. rewrite Hconfig. cbn.
    rewrite Hfind. split; reflexivity.
  - intros Hnone. rewrite Hnone. split; reflexivity.
Qed.

(** X24: the mutex of the engine: every path of NextBackend, the one
    that panics and the one that rebuilds for the backup tier included,
    takes the mutex once, first, and releases it once, last;
    SetupScheduling does the same for the primary tier and never touches
    the mutex for the backup tier. *)
Theorem scheduling_mutex_discipline (this : ServerConfig) :
  (forall options,
     exists body,
       log (snd (run (NextBackend options) this)) = EvLock :: body ++ [EvUnlock]
       /\ Forall (fun e => mutex_event e = false) body)
  /\ (exists body,
        log (snd (run (SetupScheduling false) this))
        = EvLock :: body ++ [EvUnlock]
        /\ Forall (fun e => mutex_event e = false) body)
  /\ Forall (fun e => mutex_event e = false)
       (log (snd (run (SetupScheduling true) this))).
Proof.
  split; [|split].
  - intros options.
    destruct (NextBackend_holds_mutex this options)
      as (r & st & body & Hrun & Hlog & Hbody).
    exists body. rewrite Hrun. auto.
  - exists (rebuild_events false this).
    rewrite (SetupScheduling_mutex false this).
    split; [reflexivity|apply rebuild_events_no_mutex].
  - rewrite (SetupScheduling_mutex true this). apply rebuild_events_no_mutex.
Qed.

End EngineMore.

(** ** Validation, continued *)

Section ValidationMore.

Context {Value : Type} `{!SchedulingPackage Value} `{!Collaborators}.

Lemma validate_SSL_validated (this : ServerConfig) (events : list (Event Value)) :
  validate_SSL (MkState this events)
  = (Ok (SSL_verdict this), MkState (set_SSL (validated_SSL this) this) events).
Proof.
  rewrite validate_SSL_spec. unfold validated_SSL.
  destruct this as [? ? ? ? ? ? ? ? ? ? ? [ssl|]]; reflexivity.
Qed.

(** The checks on a receiver [s] that has the part they look at in
    common with [this]. *)
Lemma validate_Backends_on (this s : ServerConfig) (events : list (Event Value)) :
  Backends s = Backends this ->
  validate_Backends (MkState s events)
  = (Ok (Backends_verdict this),
     MkState (set_Backends (validated_Backends this) s) events).
Proof.
  intros Heq. rewrite validate_Backends_spec.
  unfold Backends_verdict, validated_Backends. rewrite Heq. reflexivity.
Qed.

Lemma validate_Locations_on (this s : ServerConfig) (events : list (Event Value)) :
  Locations s = Locations this ->
  validate_Locations (MkState s events)
  = (Ok (snd (validate_range Location_Validate (Locations this))),
     MkState
       (set_Locations (fst (validate_range Location_Validate (Locations this)))
          s) events).
Proof. intros Heq. rewrite validate_Locations_spec, Heq. reflexivity. Qed.

Lemma ValidateFastcgi_on (this s : ServerConfig) (events : list (Event Value)) :
  FastcgiList s = FastcgiList this ->
  this_ValidateFastcgi (MkState s events)
  = (Ok (snd (ValidateFastcgi (FastcgiList this))),
     MkState (set_FastcgiList (fst (ValidateFastcgi (FastcgiList this))) s)
       events).
Proof. intros Heq. rewrite ValidateFastcgi_spec, Heq. reflexivity. Qed.

Lemma ValidateRewriteRules_on (this s : ServerConfig)
    (events : list (Event Value)) :
  RewriteList s = RewriteList this ->
  this_ValidateRewriteRules (MkState s events)
  = (Ok (snd (ValidateRewriteRules (RewriteList this))),
     MkState
       (set_RewriteList (fst (ValidateRewriteRules (RewriteList this))) s)
       events).
Proof. intros Heq. rewrite ValidateRewriteRules_spec, Heq. reflexivity. Qed.

Lemma ValidateHeaders_on (this s : ServerConfig) (events : list (Event Value)) :
  HeaderList s = HeaderList this ->
  this_ValidateHeaders (MkState s events)
  = (Ok (snd (ValidateHeaders (HeaderList this))),
     MkState (set_HeaderList (fst (ValidateHeaders (HeaderList this))) s)
       events).
Proof. intros Heq. rewrite ValidateHeaders_spec, Heq. reflexivity. Qed.

Lemma validate_CachePolicy_on (this s : ServerConfig)
    (events : list (Event Value)) :
  CachePolicy s = CachePolicy this ->
  validate_CachePolicy (MkState s events)
  = (Ok (CachePolicy_verdict this),
     MkState
       (set_cachePolicy
          match resolved_policy this with
          | Some policy => Some policy
          | None => cachePolicy s
          end s) events).
Proof.
  intros Heq. unfold validate_CachePolicy, CachePolicy_verdict, resolved_policy.
  rewrite bind_get. cbn [receiver]. rewrite Heq.
  destruct (String.eqb (CachePolicy this) ""); cbn [negb];
    [rewrite set_cachePolicy_same; reflexivity|].
  destruct (NewCachePolicyFromFile (CachePolicy this)) as [policy|];
    [|rewrite set_cachePolicy_same; reflexivity].
  destruct (CachePolicy_Validate policy) as [policy' [err|]];
    [rewrite set_cachePolicy_same; reflexivity|reflexivity].
Qed.

Lemma validate_API_on (this s : ServerConfig) (events : list (Event Value)) :
  API s = API this ->
  validate_API (MkState s events)
  = (Ok (API_verdict this),
     MkState
       (set_API
          (Some (fst (APIConfig_Validate (default NewAPIConfig (API this)))))
          s) events).
Proof.
  intros Heq. rewrite validate_API_spec. unfold API_verdict. rewrite Heq.
  reflexivity.
Qed.

Ltac vstep_on lemma this :=
  erewrite bind_Ok by (apply (lemma this); reflexivity); cbv beta.

Ltac leave :=
  eexists; (split; [reflexivity|]);
  cbn [receiver log first_error];
  repeat match goal with |- _ /\ _ => split end;
  try reflexivity;
  try (intros; discriminate);
  try (intros; exfalso; congruence);
  try (intros; repeat split; reflexivity);
  try (left; reflexivity).

(** [Validate] from end to end: its verdict is the first error of its
    checks in their order, and the receiver it leaves. *)
Lemma Validate_outcome (this : ServerConfig) :
  exists st,
    run Validate this = (Ok (first_error (verdicts this)), st)
    /\ identity (receiver st) = identity this
    /\ SSL (receiver st) = validated_SSL this
    /\ (SSL_verdict this = None ->
        Backends (receiver st) = validated_Backends this)
    /\ (SSL_verdict this = None ->
        Backends_verdict this = None ->
        schedulingIsBackup (receiver st) = false
        /\ Scheduling (receiver st) = recognized (Scheduling this)
        /\ schedulingObject (receiver st)
           = Some (rebuilt false (set_Backends (validated_Backends this) this))
        /\ log st
           = EvLock
             :: rebuild_events false
                  (set_Backends (validated_Backends this) this)
             ++ [EvUnlock])
    /\ (first_error [SSL_verdict this; Backends_verdict this] <> None ->
        engine (receiver st) = engine this
        /\ schedulingIsBackup (receiver st) = schedulingIsBackup this
        /\ log st = [])
    /\ (cachePolicy (receiver st) = cachePolicy this
        \/ exists policy,
             resolved_policy this = Some policy
             /\ cachePolicy (receiver st) = Some policy)
    /\ (first_error (verdicts this) = None ->
        API (receiver st)
        = Some (fst (APIConfig_Validate (default NewAPIConfig (API this))))).
Proof.
  unfold run, Validate, verdicts.
  vstep validate_SSL_validated.
  destruct (SSL_verdict this) as [e|] eqn:HSSL; [leave|].
  vstep_on validate_Backends_on this.
  destruct (Backends_verdict this) as [e|] eqn:HBackends; [leave|].
  vstep SetupScheduling_spec.
  vstep_on validate_Locations_on this.
  destruct (snd (validate_range Location_Validate _)) as [e|] eqn:HLocations;
    [leave|].
  vstep_on ValidateFastcgi_on this.
  destruct (snd (ValidateFastcgi _)) as [e|] eqn:HFastcgi; [leave|].
  vstep_on ValidateRewriteRules_on this.
  destruct (snd (ValidateRewriteRules _)) as [e|] eqn:HRewrite; [leave|].
  vstep_on ValidateHeaders_on this.
  destruct (snd (ValidateHeaders _)) as [e|] eqn:HHeaders; [leave|].
  vstep_on validate_CachePolicy_on this.
  destruct (resolved_policy this) as [policy|] eqn:Hresolved.
  - destruct (CachePolicy_verdict this) as [e|] eqn:HCache;
      [leave; right; exists policy; split; reflexivity|].
    vstep_on validate_API_on this.
    destruct (API_verdict this) as [e|] eqn:HAPI;
      leave; right; exists policy; split; reflexivity.
  - destruct (CachePolicy_verdict this) as [e|] eqn:HCache; [leave|].
    vstep_on validate_API_on this.
    destruct (API_verdict this) as [e|] eqn:HAPI; leave.
Qed.

(** X25: Validate never panics and returns the first error of its
    checks in the order SSL, backends, locations, fastcgi, rewrite rules,
    headers, cache policy, API (nil when none fails); whatever it
    returns, it leaves the identity of the server, its names and the
    cache-policy name as they were. *)
Theorem Validate_first_error (this : ServerConfig) :
  fst (run Validate this) = Ok (first_error (verdicts this))
  /\ identity (receiver (snd (run Validate this))) = identity this.
Proof.
  destruct (Validate_outcome this) as (st & Hrun & Hid & _).
  rewrite Hrun. split; [reflexivity|exact Hid].
Qed.

(** X26: when the SSL check or a backend check fails, Validate returns
    that error before it reaches the scheduling setup: the scheduling
    fields are as before and nothing was called on the scheduling
    object or the mutex. *)
Theorem Validate_stops_before_scheduling (this : ServerConfig) (err : error) :
  first_error [SSL_verdict this; Backends_verdict this] = Some err ->
  exists st,
    run Validate this = (Ok (Some err), st)
    /\ engine (receiver st) = engine this
    /\ schedulingIsBackup (receiver st) = schedulingIsBackup this
    /\ log st = [].
Proof.
  intros Herr. destruct (Validate_outcome this)
    as (st & Hrun & _ & _ & _ & _ & Hstop & _).
  exists st. split.
  - rewrite Hrun. do 2 f_equal. unfold verdicts. cbn [first_error] in *.
    destruct (SSL_verdict this); [exact Herr|].
    destruct (Backends_verdict this); [exact Herr|discriminate].
  - apply Hstop. rewrite Herr. discriminate.
Qed.

(** X27: once the SSL and backend checks pass, Validate sets the
    scheduling engine up for the primary tier from the validated
    backends, under the mutex, whatever the later checks find: an engine
    that had failed over to the backup tier is back on the primary
    tier. *)
Theorem Validate_sets_up_primary (this : ServerConfig) :
  SSL_verdict this = None ->
  Backends_verdict this = None ->
  exists verdict st,
    run Validate this = (Ok verdict, st)
    /\ schedulingIsBackup (receiver st) = false
    /\ Backends (receiver st) = validated_Backends this
    /\ schedulingObject (receiver st)
       = Some (Start (fold_left Add
                        (List.filter (in_tier false) (validated_Backends this))
                        (selected_instance (Scheduling this))))
    /\ log st
       = EvLock :: EvAssign
         :: map EvAdd (List.filter (in_tier false) (validated_Backends this))
         ++ [EvStart; EvUnlock].
Proof.
  intros HSSL HBackends. destruct (Validate_outcome this)
    as (st & Hrun & _ & _ & Hvalidated & Hsetup & _).
  destruct (Hsetup HSSL HBackends) as (Hflag & _ & Hobject & Hlog).
  exists (first_error (verdicts this)), st.
  split; [exact Hrun|]. split; [exact Hflag|].
  split; [exact (Hvalidated HSSL)|]. split; [exact Hobject|].
  rewrite Hlog. unfold rebuild_events, pool_of. cbn [Backends set_Backends].
  cbn [app]. rewrite <- app_assoc. reflexivity.
Qed.

(** X28: the cache policy object after Validate is the one from before,
    or the policy that the CachePolicy name resolves to, validated
    without error: Validate never installs a policy whose validation
    failed, and it keeps the earlier object when the name is empty or
    does not resolve. *)
Theorem Validate_CachePolicyObject (this : ServerConfig) :
  CachePolicyObject (receiver (snd (run Validate this)))
  = CachePolicyObject this
  \/ exists policy policy',
       CachePolicy this <> ""
       /\ NewCachePolicyFromFile (CachePolicy this) = Some policy
       /\ CachePolicy_Validate policy = (policy', None)
       /\ CachePolicyObject (receiver (snd (run Validate this)))
          = Some policy'.
Proof.
  destruct (Validate_outcome this)
    as (st & Hrun & _ & _ & _ & _ & _ & Hcache & _).
  rewrite Hrun. cbn [snd]. unfold CachePolicyObject.
  destruct Hcache as [Hsame|(policy' & Hresolved & Hnew)]; [left; exact Hsame|].
  right. unfold resolved_policy in Hresolved.
  destruct (String.eqb_spec (CachePolicy this) "") as [|Hname];
    [discriminate|].
  destruct (NewCachePolicyFromFile (CachePolicy this)) as [policy|];
    [|discriminate].
  destruct (CachePolicy_Validate policy) as [policy'' [err|]] eqn:Hvalid;
    [discriminate|].
  injection Hresolved as ->. exists policy, policy'. auto.
Qed.

(** X29: a Validate that returns nil leaves an API configuration in
    place (a new one when there was none), validated. *)
Theorem Validate_ensures_API (this : ServerConfig) :
  first_error (verdicts this) = None ->
  exists st,
    run Validate this = (Ok None, st)
    /\ API (receiver st)
       = Some (fst (APIConfig_Validate (default NewAPIConfig (API this)))).
Proof.
  intros Hpass. destruct (Validate_outcome this)
    as (st & Hrun & _ & _ & _ & _ & _ & _ & HAPI).
  exists st. rewrite Hrun, Hpass. split; [reflexivity|exact (HAPI Hpass)].
Qed.

(** X30: the validation of a list (the backends, the locations) stops at
    the first element that fails: the elements before it and that one
    were validated in place, those after it were not touched; without a
    failure every element was validated. *)
Theorem validate_range_first_failure {A : Type}
    (validate : A -> A * option error) (l : list A) :
  match snd (validate_range validate l) with
  | Some err =>
      exists before x after,
        l = before ++ x :: after
        /\ Forall (fun y => snd (validate y) = None) before
        /\ snd (validate x) = Some err
        /\ fst (validate_range validate l)
           = map (fun y => fst (validate y)) before
             ++ fst (validate x) :: after
  | None =>
      Forall (fun y => snd (validate y) = None) l
      /\ fst (validate_range validate l) = map (fun y => fst (validate y)) l
  end.
Proof.
  induction l as [|x rest IH]; simpl; [split; [constructor|reflexivity]|].
  destruct (validate x) as [x' [err|]] eqn:Hx; simpl.
  - exists [], x, rest. rewrite Hx. repeat split. constructor.
  - destruct (validate_range validate rest) as [rest' [err|]]; simpl in *.
    + destruct IH as (before & y & after & -> & Hall & Hy & ->).
      exists (x :: before), y, after. simpl. rewrite Hx.
      repeat split; try assumption. constructor; [rewrite Hx; reflexivity|].
      exact Hall.
    + destruct IH as [Hall ->]. split; [|reflexivity].
      constructor; [rewrite Hx; reflexivity|exact Hall].
Qed.

End ValidationMore.

(** ** The further properties on the sample configuration *)

(** A name with fewer segments than the only pattern. *)
Lemma MatchName_segment_count_sample :
  MatchName (server ["*.a.com"] [] None "") "a.com" = ("", false).
Proof.
  apply MatchName_segment_count.
  constructor; [vm_compute; lia|constructor].
Defined.

Lemma MatchName_pattern_is_name_sample :
  MatchName (server ["www.a.com"; "*.a.com"] [] None "") "www.a.com"
  = ("www.a.com", true)
  /\ In "www.a.com" (Name (server ["www.a.com"; "*.a.com"] [] None "")).
Proof.
  apply MatchName_pattern_is_name. vm_compute. discriminate.
Defined.

(** The two orders of a wildcard and a verbatim name: matched alike. *)
Lemma MatchName_matched_permutation_sample :
  snd (MatchName (server ["*.a.com"; "www.a.com"] [] None "") "www.a.com")
  = snd (MatchName (server ["www.a.com"; "*.a.com"] [] None "") "www.a.com").
Proof.
  apply MatchName_matched_permutation. apply perm_swap.
Defined.

Lemma DeleteBackend_absent_sample :
  Backends (receiver (snd (run (DeleteBackend "B9") balanced)))
  = [B1; B2; B3; B4; B5]
  /\ fst (run (DeleteBackend "B9") balanced) = Ok tt.
Proof.
  exact (DeleteBackend_absent balanced "B9" eq_refl).
Defined.

Lemma AddBackend_DeleteBackend_sample :
  Backends
    (receiver
       (snd (run (then_ (AddBackend (backend "B9" true false false))
                    (DeleteBackend "B9")) balanced)))
  = [B1; B2; B3; B4; B5].
Proof.
  exact (AddBackend_DeleteBackend balanced (backend "B9" true false false)
           eq_refl).
Defined.

(** The bounds of LocationAtIndex on a server with one location. *)
Lemma LocationAtIndex_bounds_sample :
  run (LocationAtIndex (-1)) balanced = (Ok None, MkState balanced [])
  /\ run (LocationAtIndex 1) balanced = (Ok None, MkState balanced [])
  /\ fst (run (LocationAtIndex 0) balanced)
     = Ok (Some (MkLocation "L1" [B3] ["R1"] ["F1"] true)).
Proof.
  destruct (LocationAtIndex_bounds balanced) as (Hout & Hin & _).
  split; [apply Hout; left; lia|].
  split; [apply Hout; right; simpl; lia|].
  exact (f_equal fst (Hin 0%nat L1 eq_refl)).
Defined.

Lemma NextBackend_not_set_up_sample :
  run (NextBackend (Some {["key" := 0]})) balanced
  = (Ok (None, Some {["key" := 0]}), MkState balanced [EvLock; EvUnlock]).
Proof.
  apply NextBackend_not_set_up. reflexivity.
Defined.

(** The server with the static option ["key" := 1], called with nil. *)
Lemma NextBackend_nil_options_sample :
  run (NextBackend None) ready
  = (Panic "assignment to entry in nil map", MkState ready [EvLock; EvUnlock]).
Proof.
  edestruct (NextBackend_nil_options ready) as [Hpanic _];
    [vm_compute; reflexivity|].
  apply (Hpanic keyed); [vm_compute; reflexivity|].
  intros Hempty. apply (f_equal (fun m => m !! "key")) in Hempty.
  vm_compute in Hempty. discriminate.
Defined.

Lemma NextBackend_no_static_options_sample :
  exists candidate st,
    run (NextBackend (Some {["key" := 7]})) primary_down
    = (Ok (candidate, Some {["key" := 7]}), st)
    /\ hd_error (Next_arguments (log st)) = Some (Some {["key" := 7]})
    /\ Forall (eq (Some {["key" := 7]})) (Next_arguments (log st)).
Proof.
  eapply (NextBackend_no_static_options primary_down);
    vm_compute; reflexivity.
Defined.

(** A second call on the engine that failed over: no rebuild. *)
Lemma NextBackend_stays_in_backup_sample :
  schedulingIsBackup
    (receiver (snd (run (NextBackend (Some (∅ : gmap string nat))) failed_over)))
  = true
  /\ ~ In EvAssign
         (log (snd (run (NextBackend (Some (∅ : gmap string nat))) failed_over)))
  /\ length
       (Next_arguments
          (log (snd (run (NextBackend (Some (∅ : gmap string nat)))
                       failed_over)))) <= 1.
Proof.
  apply NextBackend_stays_in_backup. vm_compute. reflexivity.
Defined.

(** The backend without address stops the validation before the
    scheduling setup. *)
Lemma Validate_stops_before_scheduling_sample :
  exists st,
    run Validate misconfigured
    = (Ok (Some "backend address should not be empty"), st)
    /\ engine (receiver st) = engine misconfigured
    /\ schedulingIsBackup (receiver st) = schedulingIsBackup misconfigured
    /\ log st = [].
Proof.
  apply Validate_stops_before_scheduling. reflexivity.
Defined.

(** Validate on the engine that failed over: back on the primary tier,
    whose pool is empty here. *)
Lemma Validate_sets_up_primary_sample :
  schedulingIsBackup failed_over = true
  /\ exists verdict st,
       run Validate failed_over = (Ok verdict, st)
       /\ schedulingIsBackup (receiver st) = false
       /\ Backends (receiver st) = [B2; B3; B4]
       /\ schedulingObject (receiver st)
          = Some (MkAlgorithm false [] true)
       /\ log st = [EvLock; EvAssign; EvStart; EvUnlock].
Proof.
  split; [vm_compute; reflexivity|].
  exact (Validate_sets_up_primary failed_over eq_refl eq_refl).
Defined.

Lemma Validate_ensures_API_sample :
  exists st,
    run Validate (with_policy "") = (Ok None, st)
    /\ API (receiver st) = Some true.
Proof.
  exact (Validate_ensures_API (with_policy "") eq_refl).
Defined.
